(** * The authentication service: token lifecycle, credential checks, CSRF guard

    A shallow embedding of the service under [auth-serrvice/]:
    - [domain/entities/user.py]            the [User] entity and its validators
    - [domain/services/auth_service.py]    [AuthDomainService]
    - [infrastructure/utils/security.py]   password hashing, [create_tokens]
    - [infrastructure/repositories/user_repository.py]  the users table
    - [infrastructure/middleware/auth.py]  [get_current_user], [csrf_protect]
    - [application/services/*.py]          the two application services
    - [api/routes/*.py], [main.py]         the routes and the exception handlers

    Python code that raises is embedded in a state-and-exception monad over a
    [World]: the users table, the clock, the source of random values and the
    process settings.  Libraries the service calls but does not contain
    (bcrypt, the Unicode tables behind [str.islower], the database driver)
    are members of the class [Platform]; every theorem holds for every
    instance of it. *)

From Stdlib Require Import String Ascii List ZArith Bool Lia.
Import ListNotations.
Local Open Scope string_scope.

Set Implicit Arguments.

(** ** Python values the service handles *)

(** [datetime.date]: compared field by field, year first. *)
Record date := mkdate { year : Z; month : Z; day : Z }.

(** Lexicographic [<] on pairs, as Python compares tuples. *)
Definition pair_ltb (a b : Z * Z) : bool :=
  ((fst a <? fst b) || ((fst a =? fst b) && (snd a <? snd b)))%Z.

Definition date_ltb (a b : date) : bool :=
  ((year a <? year b) || ((year a =? year b) && pair_ltb (month a, day a) (month b, day b)))%Z.

Definition date_gtb (a b : date) : bool := date_ltb b a.

(** The [detail] of an [HTTPException]: a message, or the dict [{"errors": [...]}]. *)
Inductive detail :=
| Detail (message : string)
| DetailErrors (errors : list string).

(** The exceptions that occur.  [ExpiredSignatureError] is a subclass of
    [JWTError]; every one of them is an [Exception]. *)
Inductive exn :=
| HTTPException (status_code : Z) (d : detail)
| ValueError (message : string)
| KeyError (key : string)
| IndexError (message : string)
| TypeError (message : string)
| ImportError (name : string)
| JWTError (message : string)
| ExpiredSignatureError (message : string)
| OperationalError (message : string)
| MultipleResultsFound (message : string)
| DataError (message : string).

(** [str(e)] *)
Definition exn_str (e : exn) : string :=
  match e with
  | HTTPException _ (Detail m) => m
  | HTTPException _ (DetailErrors _) => ""
  | ValueError m | IndexError m | TypeError m | JWTError m | ExpiredSignatureError m
  | OperationalError m | MultipleResultsFound m | DataError m => m
  | KeyError k => k
  | ImportError n => n
  end.

(** [isinstance(e, JWTError)] *)
Definition is_JWTError (e : exn) : bool :=
  match e with
  | JWTError _ | ExpiredSignatureError _ => true
  | _ => false
  end.

(** [isinstance(e, ValueError)] *)
Definition is_ValueError (e : exn) : bool :=
  match e with
  | ValueError _ => true
  | _ => false
  end.

Inductive result (A : Type) :=
| Ok (a : A)
| Raise (e : exn).
Arguments Ok {A} a.
Arguments Raise {A} e.

(** ** The [User] entity ([domain/entities/user.py]) *)

(** [bank_balance] is a [Decimal] with two places; it is kept in hundredths. *)
Record User := mkUser {
  username : string;
  email : string;
  password_hash : string;
  date_of_birth : option date;
  bank_balance : option Z
}.

Definition set_email (u : User) (e : string) : User :=
  mkUser (username u) e (password_hash u) (date_of_birth u) (bank_balance u).

Definition set_password_hash (u : User) (h : string) : User :=
  mkUser (username u) (email u) h (date_of_birth u) (bank_balance u).

Definition set_date_of_birth (u : User) (d : date) : User :=
  mkUser (username u) (email u) (password_hash u) (Some d) (bank_balance u).

(** ** What the service takes from its platform *)

(** What the driver does with a query parameter that is not text (a [User]
    object bound to the [username] column): it refuses the value, or it sends
    a value no row can equal. *)
Inductive entity_binding := RefusesEntity | MatchesNoRow.

Class Platform := {
  (** [str.islower], [str.isupper], [str.isdigit] on one character *)
  str_islower : ascii -> bool;
  str_isupper : ascii -> bool;
  str_isdigit : ascii -> bool;
  (** [bcrypt.checkpw] (it raises on a malformed digest) and [bcrypt.hashpw] *)
  checkpw : string -> string -> result bool;
  hashpw : string -> N -> string;
  bind_entity : entity_binding
}.

(** ** Credential validator *)

Section Validator.
Context {P : Platform}.

(** [any(f(c) for c in s)] *)
Fixpoint any_char (f : ascii -> bool) (s : string) : bool :=
  match s with
  | EmptyString => false
  | String c s' => f c || any_char f s'
  end.

(** [c in s] for a character [c] *)
Definition char_in (s : string) (c : ascii) : bool :=
  any_char (Ascii.eqb c) s.

Definition msg_length := "Пароль должен содержать от 8 до 20 символов".
Definition msg_lower := "Пароль должен содержать хотя бы одну строчную букву".
Definition msg_upper := "Пароль должен содержать хотя бы одну заглавную букву".
Definition msg_digit := "Пароль должен содержать хотя бы одну цифру".
Definition msg_special := "Пароль должен содержать хотя бы один спецсимвол (@$!%*?&#)".

(** [errors.append(m)] under [if c] *)
Definition append_if (c : bool) (m : string) (errors : list string) : list string :=
  if c then errors ++ [m] else errors.

(** [User.validate_password]: five tests, each appending its own message. *)
Definition validate_password (password : string) : list string :=
  let errors := [] in
  let errors :=
    append_if ((String.length password <? 8)%nat || (20 <? String.length password)%nat)
      msg_length errors in
  let errors := append_if (negb (any_char str_islower password)) msg_lower errors in
  let errors := append_if (negb (any_char str_isupper password)) msg_upper errors in
  let errors := append_if (negb (any_char str_isdigit password)) msg_digit errors in
  let errors := append_if (negb (any_char (char_in "@$!%*?&#") password)) msg_special errors in
  errors.

(** [User.age], against [date.today()] *)
Definition age (today : date) (self : User) : Z :=
  match date_of_birth self with
  | None => 0
  | Some dob =>
      (year today - year dob
       - (if pair_ltb (month today, day today) (month dob, day dob) then 1 else 0))%Z
  end.

Definition is_adult (today : date) (self : User) : bool := (18 <=? age today self)%Z.

(** [User.validate] *)
Definition validate (today : date) (self : User) : list string :=
  let errors := [] in
  let errors :=
    append_if ((String.length (username self) =? 0)%nat || (String.length (username self) <? 3)%nat)
      "Имя пользователя должно содержать не менее 3 символов" errors in
  let errors :=
    append_if ((String.length (email self) =? 0)%nat || negb (char_in (email self) "@"%char))
      "Email должен быть действительным адресом" errors in
  let errors :=
    append_if (String.length (password_hash self) =? 0)%nat
      "Пароль должен быть установлен" errors in
  let errors :=
    append_if (match date_of_birth self with
               | Some dob => date_gtb dob today
               | None => false
               end)
      "Дата рождения не может быть в будущем" errors in
  errors.

(** The five rules of the password policy, as the specification words them. *)
Inductive rule := Length | Lower | Upper | Digit | Special.

Definition has_char (ok : ascii -> Prop) (s : string) : Prop :=
  exists c, In c (list_ascii_of_string s) /\ ok c.

Definition satisfies (r : rule) (password : string) : Prop :=
  match r with
  | Length => (8 <= String.length password <= 20)%nat
  | Lower => has_char (fun c => str_islower c = true) password
  | Upper => has_char (fun c => str_isupper c = true) password
  | Digit => has_char (fun c => str_isdigit c = true) password
  | Special => has_char (fun c => In c (list_ascii_of_string "@$!%*?&#")) password
  end.

Definition message (r : rule) : string :=
  match r with
  | Length => msg_length
  | Lower => msg_lower
  | Upper => msg_upper
  | Digit => msg_digit
  | Special => msg_special
  end.

(** The test [validate_password] makes for a rule: true when it appends. *)
Definition violates (r : rule) (password : string) : bool :=
  match r with
  | Length => (String.length password <? 8)%nat || (20 <? String.length password)%nat
  | Lower => negb (any_char str_islower password)
  | Upper => negb (any_char str_isupper password)
  | Digit => negb (any_char str_isdigit password)
  | Special => negb (any_char (char_in "@$!%*?&#") password)
  end.

Definition rules : list rule := [Length; Lower; Upper; Digit; Special].

End Validator.

(** A platform for the ASCII range, used to run the definitions. *)
Definition ascii_between (lo hi : N) (c : ascii) : bool :=
  ((lo <=? N_of_ascii c) && (N_of_ascii c <=? hi))%N.

Definition toy_digest (password : string) (salt : N) : string :=
  "$2b$" ++ password.

#[export] Instance ascii_platform : Platform := {|
  str_islower := ascii_between 97 122;
  str_isupper := ascii_between 65 90;
  str_isdigit := ascii_between 48 57;
  checkpw := fun password digest =>
    if prefix "$2b$" digest
    then Ok (String.eqb digest (toy_digest password 0))
    else Raise (ValueError "Invalid salt");
  hashpw := toy_digest;
  bind_entity := RefusesEntity
|}.

(** ** Text on the wire and the token codec *)

(** The claim set of a token: the keys the service writes and reads, each one
    possibly absent ([payload.get(k)] is then [None]).  [exp] is in whole
    seconds since the epoch; [jti] stands for the text of a UUID. *)
Record claims := mkclaims {
  sub : option string;
  exp : option Z;
  typ : option string;
  jti : option N
}.

(** Modelled from the spec: the Token Codec.  The service calls [jwt.encode]
    and [jwt.decode] of python-jose, which the source tree does not contain;
    the codec follows section 4.2 and the round-trip property of section 8 of
    the specification.  A compact token is kept by what it carries: the
    algorithm of its header, its claim set, and the key under which its
    signature verifies (a forged signature verifies under no key the service
    holds). *)
Record jws := mkjws {
  jws_alg : string;
  jws_claims : claims;
  jws_key : string
}.

(** A Python [str] as it reaches the service: characters, and compact tokens
    as single items (the serialization of a token holds no space and no
    slash). *)
Inductive atom :=
| Ch (c : ascii)
| Jws (j : jws).

Definition text := list atom.

Fixpoint text_of (s : string) : text :=
  match s with
  | EmptyString => []
  | String c s' => Ch c :: text_of s'
  end.

Definition option_eqb {A} (eqb : A -> A -> bool) (a b : option A) : bool :=
  match a, b with
  | Some x, Some y => eqb x y
  | None, None => true
  | _, _ => false
  end.

Definition claims_eqb (a b : claims) : bool :=
  option_eqb String.eqb (sub a) (sub b) && option_eqb Z.eqb (exp a) (exp b)
  && option_eqb String.eqb (typ a) (typ b) && option_eqb N.eqb (jti a) (jti b).

Definition jws_eqb (a b : jws) : bool :=
  String.eqb (jws_alg a) (jws_alg b) && claims_eqb (jws_claims a) (jws_claims b)
  && String.eqb (jws_key a) (jws_key b).

Definition atom_eqb (a b : atom) : bool :=
  match a, b with
  | Ch x, Ch y => Ascii.eqb x y
  | Jws x, Jws y => jws_eqb x y
  | _, _ => false
  end.

(** [a == b] on [str] *)
Fixpoint text_eqb (a b : text) : bool :=
  match a, b with
  | [], [] => true
  | x :: a', y :: b' => atom_eqb x y && text_eqb a' b'
  | _, _ => false
  end.

(** [s.startswith(p)] *)
Fixpoint startswith (p s : text) : bool :=
  match p, s with
  | [], _ => true
  | x :: p', y :: s' => atom_eqb x y && startswith p' s'
  | _ :: _, [] => false
  end.

(** [p in s] *)
Fixpoint contains (p s : text) : bool :=
  startswith p s ||
  match s with
  | [] => false
  | _ :: s' => contains p s'
  end.

(** [s.split(" ")]: the pieces between single spaces, at least one. *)
Fixpoint split_space (s : text) : list text :=
  match s with
  | [] => [[]]
  | Ch " " :: s' => [] :: split_space s'
  | a :: s' =>
      match split_space s' with
      | w :: ws => (a :: w) :: ws
      | [] => [[a]]
      end
  end.

(** Truth of a [str]: it is not empty.  Truth of an [Optional[str]]: it is
    neither [None] nor empty. *)
Definition truthy (s : option text) : bool :=
  match s with
  | Some (_ :: _) => true
  | _ => false
  end.

Definition is_ascii (s : text) : bool :=
  forallb (fun a => match a with
                    | Ch c => (N_of_ascii c <? 128)%N
                    | Jws _ => true
                    end) s.

(** ** Settings ([infrastructure/config/settings.py]) *)

Record Settings := mkSettings {
  SECRET_KEY : string;
  ALGORITHM : string;
  ACCESS_TOKEN_EXPIRE_MINUTES : Z;
  REFRESH_TOKEN_EXPIRE_DAYS : Z
}.

(** The values taken when the environment sets none. *)
Definition default_settings : Settings := {|
  SECRET_KEY := "09d25e094faa6ca2556c87f29b2929ca004170af3400c48f53514f00961f201d";
  ALGORITHM := "HS256";
  ACCESS_TOKEN_EXPIRE_MINUTES := 60;
  REFRESH_TOKEN_EXPIRE_DAYS := 7
|}.

(** ** The world the service runs in *)

(** The users table, or a store that cannot be reached. *)
Inductive Store :=
| Reachable (rows : list User)
| Unreachable.

(** Calls on the repository that write, in the order made. *)
Inductive repo_call :=
| CallUpdate (entity : User)
| CallDelete (id_value : string).

Record World := mkWorld {
  settings : Settings;
  store : Store;
  utcnow : Z;          (** [datetime.utcnow()], whole seconds since the epoch *)
  utc_offset : Z;      (** local time minus UTC, in seconds *)
  today : date;        (** [date.today()] *)
  entropy : N;         (** the next value of the random source *)
  repo_log : list repo_call
}.

Definition set_store (w : World) (s : Store) : World :=
  mkWorld (settings w) s (utcnow w) (utc_offset w) (today w) (entropy w) (repo_log w).

Definition set_utcnow (w : World) (t : Z) : World :=
  mkWorld (settings w) (store w) t (utc_offset w) (today w) (entropy w) (repo_log w).

Definition set_entropy (w : World) (n : N) : World :=
  mkWorld (settings w) (store w) (utcnow w) (utc_offset w) (today w) n (repo_log w).

Definition log_call (w : World) (c : repo_call) : World :=
  mkWorld (settings w) (store w) (utcnow w) (utc_offset w) (today w) (entropy w)
    (repo_log w ++ [c]).

(** ** The monad: state and exceptions *)

Definition M (A : Type) : Type := World -> result A * World.

Definition ret {A} (a : A) : M A := fun w => (Ok a, w).

Definition bind {A B} (c : M A) (k : A -> M B) : M B :=
  fun w =>
    match c w with
    | (Ok a, w') => k a w'
    | (Raise e, w') => (Raise e, w')
    end.

(** [raise e] *)
Definition throw {A} (e : exn) : M A := fun w => (Raise e, w).

(** [try: c  except E as e: h e], where [caught] tells the members of [E] *)
Definition try_except {A} (c : M A) (caught : exn -> bool) (h : exn -> M A) : M A :=
  fun w =>
    match c w with
    | (Raise e, w') => if caught e then h e w' else (Raise e, w')
    | r => r
    end.

Definition gets {A} (f : World -> A) : M A := fun w => (Ok (f w), w).

Definition modify (f : World -> World) : M unit := fun w => (Ok tt, f w).

(** Lift a library call that returns or raises. *)
Definition lift {A} (r : result A) : M A := fun w => (r, w).

Declare Scope monad_scope.
Delimit Scope monad_scope with monad.
Notation "x <- c ;; k" := (bind c (fun x => k))
  (at level 100, c at next level, right associativity) : monad_scope.
Notation "' pat <- c ;; k" := (bind c (fun x => match x with pat => k end))
  (at level 100, pat pattern, c at next level, right associativity) : monad_scope.
Notation "c ;;; k" := (bind c (fun _ => k))
  (at level 100, right associativity) : monad_scope.
Local Open Scope monad_scope.

Definition any_exception (e : exn) : bool := true.

(** ** Library calls *)

(** [uuid.uuid4()], [bcrypt.gensalt()]: the next value of the random source. *)
Definition uuid4 : M N :=
  fun w => (Ok (entropy w), set_entropy w (entropy w + 1)).

Definition gensalt : M N := uuid4.

(** [d[k]] on a dict of strings *)
Fixpoint dict_get (d : list (string * string)) (k : string) : result string :=
  match d with
  | [] => Raise (KeyError k)
  | (k', v) :: d' => if String.eqb k' k then Ok v else dict_get d' k
  end.

(** [d.get(k)] on the cookies and headers of a request *)
Fixpoint lookup (d : list (string * text)) (k : string) : option text :=
  match d with
  | [] => None
  | (k', v) :: d' => if String.eqb k' k then Some v else lookup d' k
  end.

(** Modelled from the spec: [jwt.encode(claims, key, algorithm=alg)] of
    python-jose, absent from the source tree: the compact token that carries
    the claims, signed under [key]. *)
Definition jwt_encode (c : claims) (key alg : string) : text :=
  [Jws (mkjws alg c key)].

(** Modelled from the spec: [jwt.decode(token, key, algorithms=algs)] of
    python-jose, absent from the source tree.  The text must be one compact
    token, signed under [key] with one of [algs]; a token is expired from the
    instant [exp] on (specification, 4.2 and 8).  Every failure is a
    [JWTError]. *)
Definition jwt_decode (token : text) (key : string) (algs : list string) : M claims :=
  now <- gets utcnow ;;
  match token with
  | [Jws j] =>
      if String.eqb (jws_key j) key && existsb (String.eqb (jws_alg j)) algs
      then
        match exp (jws_claims j) with
        | Some e =>
            if (e <=? now)%Z
            then throw (ExpiredSignatureError "Signature has expired.")
            else ret (jws_claims j)
        | None => ret (jws_claims j)
        end
      else throw (JWTError "Signature verification failed.")
  | _ => throw (JWTError "Not enough segments")
  end.

(** [datetime.fromtimestamp(exp)]: a naive datetime in local time, kept as
    seconds on the same scale as [datetime.utcnow()]. *)
Definition fromtimestamp (e : option Z) : M Z :=
  match e with
  | Some e => off <- gets utc_offset ;; ret (e + off)%Z
  | None => throw (TypeError "an integer is required (got type NoneType)")
  end.

(** ** [infrastructure/utils/security.py] *)

Section Service.
Context {P : Platform}.

Definition hash_password (password : string) : M string :=
  salt <- gensalt ;;
  ret (hashpw password salt).

Definition verify_password (password hashed_password : string) : M bool :=
  lift (checkpw password hashed_password).

Definition create_tokens (data : list (string * string)) : M (text * text) :=
  cfg <- gets settings ;;
  now <- gets utcnow ;;
  let access_token_expires := (now + 60 * ACCESS_TOKEN_EXPIRE_MINUTES cfg)%Z in
  now' <- gets utcnow ;;
  let refresh_token_expires := (now' + 86400 * REFRESH_TOKEN_EXPIRE_DAYS cfg)%Z in
  s <- lift (dict_get data "sub") ;;
  j <- uuid4 ;;
  let access_token_data := mkclaims (Some s) (Some access_token_expires) (Some "access") (Some j) in
  let access_token := jwt_encode access_token_data (SECRET_KEY cfg) (ALGORITHM cfg) in
  s' <- lift (dict_get data "sub") ;;
  j' <- uuid4 ;;
  let refresh_token_data := mkclaims (Some s') (Some refresh_token_expires) (Some "refresh") (Some j') in
  let refresh_token := jwt_encode refresh_token_data (SECRET_KEY cfg) (ALGORITHM cfg) in
  ret (access_token, refresh_token).

(** ** [AuthDomainService] *)

(** [hmac.compare_digest] on two [str]: both must be ASCII. *)
Definition verify_csrf_token (token1 token2 : text) : M bool :=
  if is_ascii token1 && is_ascii token2
  then ret (text_eqb token1 token2)
  else throw (TypeError "comparing strings with non-ASCII characters is not supported").

Definition is_token_expired (expiration_time : Z) : M bool :=
  now <- gets utcnow ;;
  ret (expiration_time <? now)%Z.

(** ** [UserRepository] *)

(** A value passed where a user name is expected. *)
Inductive pyval :=
| VNone
| VStr (s : string)
| VUser (u : User).
Coercion VStr : string >-> pyval.

Definition pyval_of (u : option User) : pyval :=
  match u with
  | Some u => VUser u
  | None => VNone
  end.

(** [s != v] for a [str] [s]: equal only to an equal [str]. *)
Definition str_ne (s : string) (v : pyval) : bool :=
  match v with
  | VStr s' => negb (String.eqb s s')
  | _ => true
  end.

(** [UserModel.to_entity] *)
Definition to_entity (row : User) : User :=
  mkUser (username row) (email row) (password_hash row) (date_of_birth row)
    (match bank_balance row with
     | Some b => Some b
     | None => Some 0%Z
     end).

(** [result.scalar_one_or_none()] *)
Definition scalar_one_or_none (rows : list User) : result (option User) :=
  match rows with
  | [] => Ok None
  | [r] => Ok (Some r)
  | _ => Raise (MultipleResultsFound "Multiple rows were found when one or none was required")
  end.

(** [session.execute(select(UserModel).where(test))] *)
Definition select_where (test : User -> bool) : M (list User) :=
  s <- gets store ;;
  match s with
  | Reachable rows => ret (filter test rows)
  | Unreachable => throw (OperationalError "connection refused")
  end.

(** [select(UserModel).where(UserModel.username == key)]: the primary key
    is never null, and a key that is no text is left to the driver. *)
Definition select_username (key : pyval) : M (list User) :=
  match key with
  | VStr s => select_where (fun r => String.eqb (username r) s)
  | VNone => select_where (fun _ => false)
  | VUser _ =>
      rows <- select_where (fun _ => false) ;;
      match bind_entity with
      | RefusesEntity => throw (DataError "invalid input for query argument $1 (expected str)")
      | MatchesNoRow => ret rows
      end
  end.

Definition get_by_username (key : pyval) : M (option User) :=
  rows <- select_username key ;;
  user_model <- lift (scalar_one_or_none rows) ;;
  ret (option_map to_entity user_model).

Definition get_by_email (e : string) : M (option User) :=
  rows <- select_where (fun r => String.eqb (email r) e) ;;
  user_model <- lift (scalar_one_or_none rows) ;;
  ret (option_map to_entity user_model).

(** The row of [entity] rewritten in place, the user name kept. *)
Definition write_row (entity : User) (rows : list User) : list User :=
  map (fun r => if String.eqb (username r) (username entity)
                then mkUser (username r) (email entity) (password_hash entity)
                       (date_of_birth entity) (bank_balance entity)
                else r) rows.

(** [UserRepository.update] *)
Definition update (entity : User) : M User :=
  modify (fun w => log_call w (CallUpdate entity)) ;;;
  rows <- select_where (fun r => String.eqb (username r) (username entity)) ;;
  user_model <- lift (scalar_one_or_none rows) ;;
  match user_model with
  | None => throw (ValueError ("Пользователь с именем " ++ username entity ++ " не найден"))
  | Some _ =>
      s <- gets store ;;
      match s with
      | Reachable all =>
          modify (fun w => set_store w (Reachable (write_row entity all))) ;;;
          rows' <- select_where (fun r => String.eqb (username r) (username entity)) ;;
          match rows' with
          | r :: _ => ret (to_entity r)
          | [] => throw (OperationalError "row vanished")
          end
      | Unreachable => throw (OperationalError "connection refused")
      end
  end.

(** [UserRepository.delete] *)
Definition delete (id_value : string) : M bool :=
  modify (fun w => log_call w (CallDelete id_value)) ;;;
  rows <- select_where (fun r => String.eqb (username r) id_value) ;;
  user_model <- lift (scalar_one_or_none rows) ;;
  match user_model with
  | None => ret false
  | Some _ =>
      s <- gets store ;;
      match s with
      | Reachable all =>
          modify (fun w =>
                    set_store w
                      (Reachable (filter (fun r => negb (String.eqb (username r) id_value)) all))) ;;;
          ret true
      | Unreachable => throw (OperationalError "connection refused")
      end
  end.

(** ** [AuthApplicationService] *)

Record TokenSchema := mkTokenSchema {
  access_token : text;
  refresh_token_of : text;
  token_type : string
}.

(** The cookie operations a [Response] has collected. *)
Inductive cookie_op :=
| SetCookie (key : string) (value : text)
| DeleteCookie (key : string).

Record Response := mkResponse { cookie_ops : list cookie_op }.

Definition delete_cookie (r : Response) (key : string) : Response :=
  mkResponse (cookie_ops r ++ [DeleteCookie key]).

Definition authenticate_user (name password : string) : M (option TokenSchema) :=
  try_except
    (user <- get_by_username name ;;
     match user with
     | None => ret None
     | Some user =>
         ok <- verify_password password (password_hash user) ;;
         if negb ok then ret None
         else
           ' (access, refresh) <- create_tokens [("sub", username user)] ;;
           ret (Some (mkTokenSchema access refresh "bearer"))
     end)
    any_exception
    (fun _ => ret None).

(** [not username] for the [sub] of a payload *)
Definition no_subject (s : option string) : bool :=
  match s with
  | None | Some "" => true
  | Some _ => false
  end.

(** [token_type != kind] *)
Definition type_differs (t : option string) (kind : string) : bool :=
  match t with
  | Some t => negb (String.eqb t kind)
  | None => true
  end.

Definition refresh_token (token : text) : M TokenSchema :=
  try_except
    (cfg <- gets settings ;;
     payload <- jwt_decode token (SECRET_KEY cfg) [ALGORITHM cfg] ;;
     let name := sub payload in
     let token_type := typ payload in
     let e := exp payload in
     if type_differs token_type "refresh" || no_subject name
     then throw (ValueError "Недействительный refresh токен")
     else
       expiry <- fromtimestamp e ;;
       expired <- is_token_expired expiry ;;
       if expired then throw (ValueError "Истекший refresh токен")
       else
         match name with
         | None => throw (ValueError "Недействительный refresh токен") (* excluded above *)
         | Some name =>
             user <- get_by_username name ;;
             match user with
             | None => throw (ValueError "Пользователь не найден")
             | Some _ =>
                 ' (access, refresh) <- create_tokens [("sub", name)] ;;
                 ret (mkTokenSchema access refresh "bearer")
             end
         end)
    any_exception
    (fun e => throw (ValueError ("Не удалось обновить токен: " ++ exn_str e))).

(** [AuthApplicationService.logout]: the token, when given, is left alone
    (the denylist is a TODO); the cookies of a given response are deleted. *)
Definition logout (token : option text) (response : option Response)
  : M (string * option Response) :=
  (if truthy token then ret tt else ret tt) ;;;
  let response :=
    match response with
    | Some r =>
        Some (delete_cookie (delete_cookie (delete_cookie r "access_token") "refresh_token")
                "csrf_token")
    | None => None
    end in
  ret ("Вы успешно вышли из системы", response).

(** ** [infrastructure/middleware/auth.py] *)

(** Header names are matched without regard to case: they are kept in lower
    case and looked up in lower case. *)
Definition lower_char (c : ascii) : ascii :=
  let n := N_of_ascii c in
  if ((65 <=? n) && (n <=? 90))%N then ascii_of_N (n + 32) else c.

Fixpoint lower (s : string) : string :=
  match s with
  | EmptyString => EmptyString
  | String c s' => String (lower_char c) (lower s')
  end.

Record Request := mkRequest {
  method : string;
  cookies : list (string * text);
  headers : list (string * text)
}.

Definition cookies_get (r : Request) (k : string) : option text := lookup (cookies r) k.
Definition headers_get (r : Request) (k : string) : option text := lookup (headers r) (lower k).

(** The token of a request: the cookie, else the second piece of a
    [Bearer] authorization header. *)
Definition extract_token (request : Request) : M (option text) :=
  let token := cookies_get request "access_token" in
  if negb (truthy token) then
    let auth_header := headers_get request "Authorization" in
    match auth_header with
    | Some h =>
        if truthy auth_header && startswith (text_of "Bearer ") h
        then
          match split_space h with
          | _ :: t :: _ => ret (Some t)
          | _ => throw (IndexError "list index out of range")
          end
        else ret token
    | None => ret token
    end
  else ret token.

Definition get_current_user (request : Request) : M (option User) :=
  token <- extract_token request ;;
  match token with
  | Some ((_ :: _) as token) =>
      try_except
        (cfg <- gets settings ;;
         payload <- jwt_decode token (SECRET_KEY cfg) [ALGORITHM cfg] ;;
         let name := sub payload in
         let token_type := typ payload in
         if no_subject name || type_differs token_type "access" then ret None
         else
           match name with
           | Some name => get_by_username name
           | None => ret None
           end)
        is_JWTError
        (fun _ => ret None)
  | _ => ret None
  end.

(** The names bound in the module [application.services.auth_service]: its
    imports and the one class it defines. *)
Definition application_services_auth_service : list string :=
  ["HTTPException"; "status"; "Request"; "Response"; "OAuth2PasswordRequestForm";
   "Dict"; "Optional"; "Tuple"; "Union"; "datetime"; "User"; "AuthDomainService";
   "TokenSchema"; "UserRepositoryInterface"; "verify_password"; "create_tokens";
   "generate_csrf_token"; "ACCESS_TOKEN_EXPIRE_MINUTES"; "REFRESH_TOKEN_EXPIRE_DAYS";
   "SECURE_COOKIE"; "AuthApplicationService"].

(** [from module import name] *)
Definition import_from (module : list string) (name : string) : M unit :=
  if existsb (String.eqb name) module then ret tt
  else throw (ImportError ("cannot import name " ++ name)).

Definition state_changing (m : string) : bool :=
  existsb (String.eqb m) ["POST"; "PUT"; "DELETE"].

(** The Swagger exemption: a referer that holds [/docs]. *)
Definition from_docs (request : Request) : bool :=
  truthy (headers_get request "referer") &&
  match headers_get request "referer" with
  | Some r => contains (text_of "/docs") r
  | None => false
  end.

(** [csrf_protect], with the module its import reads as a parameter; the
    service as shipped runs it on [application_services_auth_service].  A
    module that binds [AuthService] is taken to bind the application service,
    whose [verify_csrf_token] is the domain service's. *)
Definition csrf_protect {A} (module : list string) (request : Request)
    (call_next : Request -> M A) : M A :=
  if from_docs request then call_next request
  else
    (if state_changing (method request) then
       let cookie := cookies_get request "csrf_token" in
       let header := headers_get request "X-CSRF-Token" in
       match cookie, header with
       | Some ((_ :: _) as cookie), Some ((_ :: _) as header) =>
           import_from module "AuthService" ;;;
           ok <- verify_csrf_token cookie header ;;
           if negb ok
           then throw (HTTPException 403 (Detail "Invalid CSRF token"))
           else ret tt
       | _, _ => throw (HTTPException 403 (Detail "CSRF token missing"))
       end
     else ret tt) ;;;
    call_next request.

(** ** [UserApplicationService] *)

Record UserInfoSchema := mkUserInfoSchema {
  info_username : string;
  info_email : string;
  info_date_of_birth : option date
}.

(** The dict [get_user_info] returns. *)
Record UserInfo := mkUserInfo {
  ui_username : string;
  ui_email : string;
  ui_date_of_birth : option date;
  ui_age : Z;
  ui_is_adult : bool
}.

Definition not_found : exn := HTTPException 404 (Detail "Пользователь не найден").
Definition email_conflict : exn :=
  HTTPException 409 (Detail "Пользователь с таким email уже существует").
Definition bad_request (errors : list string) : exn :=
  HTTPException 400 (DetailErrors errors).

Definition get_user_info (name : pyval) : M UserInfo :=
  user <- get_by_username name ;;
  match user with
  | None => throw not_found
  | Some user =>
      d <- gets today ;;
      ret (mkUserInfo (username user) (email user) (date_of_birth user)
             (age d user) (is_adult d user))
  end.

Definition nonempty {A} (l : list A) : bool :=
  match l with
  | [] => false
  | _ :: _ => true
  end.

Definition update_user (name : string) (new_email new_password : option string)
    (new_date_of_birth : option date) : M UserInfoSchema :=
  user <- get_by_username name ;;
  match user with
  | None => throw not_found
  | Some user =>
      user <-
        match new_email with
        | Some e =>
            existing_email <- get_by_email e ;;
            match existing_email with
            | Some other =>
                if negb (String.eqb (username other) name) then throw email_conflict
                else ret (set_email user e)
            | None => ret (set_email user e)
            end
        | None => ret user
        end ;;
      user <-
        match new_password with
        | Some p =>
            let password_errors := validate_password p in
            if nonempty password_errors then throw (bad_request password_errors)
            else
              h <- hash_password p ;;
              ret (set_password_hash user h)
        | None => ret user
        end ;;
      user <-
        match new_date_of_birth with
        | Some d =>
            let user := set_date_of_birth user d in
            t <- gets today ;;
            let validation_errors := validate t user in
            if nonempty validation_errors then throw (bad_request validation_errors)
            else ret user
        | None => ret user
        end ;;
      updated_user <- update user ;;
      ret (mkUserInfoSchema (username updated_user) (email updated_user)
             (date_of_birth updated_user))
  end.

(** ** The routes ([api/routes/auth.py], [api/routes/users.py]) *)

Definition invalid_credentials : exn :=
  HTTPException 401 (Detail "Неверное имя пользователя или пароль").

(** [POST /auth/login] *)
Definition login (name password : string) : M TokenSchema :=
  tokens <- authenticate_user name password ;;
  match tokens with
  | None => throw invalid_credentials
  | Some tokens => ret tokens
  end.

(** [POST /auth/refresh] *)
Definition refresh_route (token : text) : M TokenSchema :=
  try_except (refresh_token token) is_ValueError
    (fun e => throw (HTTPException 401 (Detail (exn_str e)))).

(** [POST /auth/logout]: the service's answer is dropped, the status is 204. *)
Definition logout_route (token : text) : M unit :=
  logout (Some token) None ;;;
  ret tt.

(** [GET /users/{username}].  The parameter [current_username] is what the
    dependency [get_current_user] returned: a [User] or [None]. *)
Definition get_user_info_route (request : Request) (name : string) : M UserInfoSchema :=
  current <- get_current_user request ;;
  let current_username := pyval_of current in
  user_info <-
    (if str_ne name current_username
     then get_user_info current_username
     else get_user_info name) ;;
  ret (mkUserInfoSchema (ui_username user_info) (ui_email user_info)
         (ui_date_of_birth user_info)).

(** What the lookup of a [User] object, bound as a user name, comes to. *)
Definition entity_lookup_failure : exn :=
  match bind_entity with
  | RefusesEntity => DataError "invalid input for query argument $1 (expected str)"
  | MatchesNoRow => not_found
  end.

(** ** The exception handlers of [main.py] *)

Inductive content :=
| ErrorOf (d : detail)          (** [{"message": f"Error: {exc.detail}"}] *)
| InternalServerError.          (** the fixed message of the general handler *)

Inductive http_response (A : Type) :=
| Returned (body : A)
| JSONResponse (status_code : Z) (c : content).
Arguments Returned {A} body.
Arguments JSONResponse {A} status_code c.

Definition respond {A} (r : result A) : http_response A :=
  match r with
  | Ok a => Returned a
  | Raise (HTTPException s d) => JSONResponse s (ErrorOf d)
  | Raise _ => JSONResponse 500 InternalServerError
  end.

(** A route run to its response. *)
Definition serve {A} (c : M A) (w : World) : http_response A := respond (fst (c w)).

End Service.

Arguments Returned {A} body.
Arguments JSONResponse {A} status_code c.

(** ** The rest of the domain and of the services *)

Section MoreService.
Context {P : Platform}.

(** [UserDomainService.validate_registration] *)
Definition validate_registration (today : date) (name mail password : string)
    (dob : date) : list string :=
  let errors := [] in
  let a :=
    (year today - year dob
     - (if pair_ltb (month today, day today) (month dob, day dob) then 1 else 0))%Z in
  let errors :=
    append_if (a <? 18)%Z "Пользователь должен быть совершеннолетним (18+)" errors in
  let temp_user := mkUser name mail password (Some dob) None in
  let errors := (errors ++ validate today temp_user)%list in
  let errors := (errors ++ validate_password password)%list in
  errors.

(** [x or d] on an optional integer: [None] and [0] give [d]. *)
Definition int_or (x : option Z) (d : Z) : Z :=
  match x with
  | None | Some 0%Z => d
  | Some v => v
  end.

(** [AuthDomainService.calculate_token_expiry] *)
Definition calculate_token_expiry (token_type : string) (minutes days : option Z) : M Z :=
  now <- gets utcnow ;;
  if String.eqb token_type "access" then ret (now + 60 * int_or minutes 60)%Z
  else if String.eqb token_type "refresh" then ret (now + 86400 * int_or days 7)%Z
  else throw (ValueError ("Неизвестный тип токена: " ++ token_type)).

(** [AuthDomainService.should_refresh_token]; [None] for the default
    threshold of five minutes. *)
Definition should_refresh_token (expiration_time : Z) (threshold_minutes : option Z) : M bool :=
  now <- gets utcnow ;;
  let time_left := (expiration_time - now)%Z in
  let threshold :=
    (60 * match threshold_minutes with
          | Some m => m
          | None => 5
          end)%Z in
  ret (time_left <? threshold)%Z.

(** The password validator of [UserRegisterSchema] and [UserUpdateSchema]
    ([domain/schemas/user.py]): it raises at the first rule broken.  The
    field itself is declared with [min_length=8, max_length=20]. *)
Definition schema_validate_password (v : string) : result string :=
  if negb (any_char str_islower v) then Raise (ValueError msg_lower)
  else if negb (any_char str_isupper v) then Raise (ValueError msg_upper)
  else if negb (any_char str_isdigit v) then Raise (ValueError msg_digit)
  else if negb (any_char (char_in "@$!%*?&#") v) then Raise (ValueError msg_special)
  else Ok v.

Definition password_field_length (v : string) : bool :=
  (8 <=? String.length v)%nat && (String.length v <=? 20)%nat.

(** [validate_date_of_birth] of the two schemas *)
Definition schema_validate_date_of_birth (today : date) (v : date) : result date :=
  if date_gtb v today then Raise (ValueError "Дата рождения не может быть в будущем")
  else if date_ltb v (mkdate 1900 1 1)
       then Raise (ValueError "Дата рождения не может быть ранее 1900-01-01")
       else Ok v.

(** [UserRepository.create].  The user name is the primary key: the store
    refuses a second row of the same name with a database error.  The log
    of calls keeps [update] and [delete] only. *)
Definition create (entity : User) : M User :=
  s <- gets store ;;
  match s with
  | Reachable rows =>
      if existsb (fun r => String.eqb (username r) (username entity)) rows
      then throw (DataError "duplicate key value violates unique constraint")
      else
        modify (fun w => set_store w (Reachable (rows ++ [entity])%list)) ;;;
        ret (to_entity entity)
  | Unreachable => throw (OperationalError "connection refused")
  end.


Definition username_conflict : exn :=
  HTTPException 409 (Detail "Пользователь с таким именем уже существует").

(** [UserApplicationService.register_user] *)
Definition register_user (name mail password : string) (dob : date) : M UserInfoSchema :=
  existing_user <- get_by_username name ;;
  match existing_user with
  | Some _ => throw username_conflict
  | None =>
      existing_email <- get_by_email mail ;;
      match existing_email with
      | Some _ => throw email_conflict
      | None =>
          t <- gets today ;;
          let validation_errors := validate_registration t name mail password dob in
          if nonempty validation_errors then throw (bad_request validation_errors)
          else
            h <- hash_password password ;;
            let user := mkUser name mail h (Some dob) (Some 0%Z) in
            created_user <- create user ;;
            ret (mkUserInfoSchema (username created_user) (email created_user)
                   (date_of_birth created_user))
      end
  end.

(** [UserApplicationService.get_user_by_username] *)
Definition get_user_by_username (name : pyval) : M UserInfoSchema :=
  user <- get_by_username name ;;
  match user with
  | None => throw not_found
  | Some user => ret (mkUserInfoSchema (username user) (email user) (date_of_birth user))
  end.

(** [UserApplicationService.delete_user] *)
Definition delete_user (name : string) : M string :=
  deleted <- delete name ;;
  if negb deleted then throw not_found
  else ret "Пользователь успешно удален".

(** [GET /users/me]: as in [get_user_info_route], [current_username] is what
    [get_current_user] returned. *)
Definition get_current_user_info (request : Request) : M UserInfoSchema :=
  current <- get_current_user request ;;
  let current_username := pyval_of current in
  get_user_by_username current_username.

(** The error [refresh_token] raises, whatever went wrong inside it. *)
Definition refresh_failed (reason : string) : exn :=
  ValueError ("Не удалось обновить токен: " ++ reason).

End MoreService.

(** ** Worlds and requests to run the definitions on *)

Definition alice : User :=
  mkUser "alice" "alice@example.com" (toy_digest "Secure1!x" 0)
    (Some (mkdate 2000 1 1)) (Some 0%Z).

Definition bob : User :=
  mkUser "bob" "bob@example.com" (toy_digest "Another2?y" 0)
    (Some (mkdate 1990 5 17)) (Some 0%Z).

Definition world0 : World :=
  mkWorld default_settings (Reachable [alice; bob]) 1000000 0 (mkdate 2026 11 4) 0 [].

Definition world_down : World := set_store world0 Unreachable.

(** The pair minted for [alice] in [world0]. *)
Definition alice_tokens : text * text :=
  match create_tokens [("sub", "alice")] world0 with
  | (Ok p, _) => p
  | _ => ([], [])
  end.

Definition with_cookie (name : string) (value : text) : Request :=
  mkRequest "GET" [(name, value)] [].

Definition with_bearer (t : text) : Request :=
  mkRequest "GET" [] [("authorization", (text_of "Bearer " ++ t)%list)].

(** The same world on a server five hours behind UTC, four hours before
    the refresh token of [alice_tokens] expires. *)
Definition world_west : World :=
  mkWorld default_settings (Reachable [alice; bob]) 1590400 (-18000) (mkdate 2026 11 4) 0 [].

(** A request with a stale cookie beside a good bearer header. *)
Definition stale_cookie_request : Request :=
  mkRequest "GET" [("access_token", text_of "stale")]
    [("authorization", (text_of "Bearer " ++ fst alice_tokens)%list)].

(** A POST sent from the Swagger page, and a handler that tells it ran. *)
Definition post_from_docs : Request :=
  mkRequest "POST" [] [("referer", text_of "http://localhost:8000/api/docs")].

Definition handled : Request -> M string := fun _ => ret "handled".

(** * Properties *)

(** ** Credential validator *)

Section ValidatorFacts.
Context {P : Platform}.

Lemma any_char_has (f : ascii -> bool) (s : string) :
  any_char f s = true <-> has_char (fun c => f c = true) s.
Proof.
  unfold has_char. induction s as [|c s IH]; simpl.
  - split; [discriminate | intros (c & [] & _)].
  - rewrite orb_true_iff, IH. split.
    + intros [Hc | (c' & Hin & Hc')]; [exists c | exists c']; auto.
    + intros (c' & [<- | Hin] & Hc'); [left | right; exists c']; auto.
Qed.

Lemma char_in_In (s : string) (c : ascii) :
  char_in s c = true <-> In c (list_ascii_of_string s).
Proof.
  unfold char_in. rewrite any_char_has. unfold has_char. split.
  - intros (c' & Hin & Heq). apply Ascii.eqb_eq in Heq. now subst.
  - intros Hin. exists c. split; [assumption | apply Ascii.eqb_refl].
Qed.

Lemma has_char_ext (ok ok' : ascii -> Prop) (s : string) :
  (forall c, ok c <-> ok' c) -> has_char ok s <-> has_char ok' s.
Proof.
  intros H. unfold has_char.
  split; intros (c & Hin & Hc); exists c; (split; [assumption | now apply H]).
Qed.

(** Each test of the code fails exactly on the passwords that break its rule. *)
Lemma violates_iff (r : rule) (password : string) :
  violates r password = true <-> ~ satisfies r password.
Proof.
  destruct r; simpl.
  - rewrite orb_true_iff, !Nat.ltb_lt. lia.
  - rewrite negb_true_iff, <- not_true_iff_false. now rewrite any_char_has.
  - rewrite negb_true_iff, <- not_true_iff_false. now rewrite any_char_has.
  - rewrite negb_true_iff, <- not_true_iff_false. now rewrite any_char_has.
  - rewrite negb_true_iff, <- not_true_iff_false, any_char_has.
    now rewrite (has_char_ext _ _ password (char_in_In "@$!%*?&#")).
Qed.

Lemma satisfies_iff (r : rule) (password : string) :
  violates r password = false <-> satisfies r password.
Proof.
  destruct (violates r password) eqn:E.
  - apply violates_iff in E. split; [discriminate | contradiction].
  - split; [intros _ | reflexivity].
    destruct r; simpl in *.
    + apply orb_false_iff in E as [E1 E2].
      apply Nat.ltb_ge in E1, E2. lia.
    + apply negb_false_iff in E. now apply any_char_has.
    + apply negb_false_iff in E. now apply any_char_has.
    + apply negb_false_iff in E. now apply any_char_has.
    + apply negb_false_iff in E. apply any_char_has in E.
      now apply (has_char_ext _ _ password (char_in_In "@$!%*?&#")).
Qed.

(** The list returned holds, in the order of the rules, the message of each
    rule whose test fails. *)
Lemma validate_password_unfold (password : string) :
  validate_password password =
  flat_map (fun r => if violates r password then [message r] else []) rules.
Proof.
  unfold validate_password, append_if, rules. simpl.
  destruct (_ || _), (negb (any_char str_islower password)),
    (negb (any_char str_isupper password)), (negb (any_char str_isdigit password)),
    (negb (any_char (char_in "@$!%*?&#") password)); reflexivity.
Qed.

Lemma message_inj (r r' : rule) : message r = message r' -> r = r'.
Proof. destruct r, r'; simpl; intros H; try reflexivity; discriminate H. Qed.

Lemma In_validate_password (r : rule) (password : string) :
  In (message r) (validate_password password) <-> violates r password = true.
Proof.
  rewrite validate_password_unfold, in_flat_map. split.
  - intros (r' & _ & Hin). destruct (violates r' password) eqn:E; [|contradiction].
    destruct Hin as [Heq | []]. apply message_inj in Heq. now subst.
  - intros E. exists r. split.
    + unfold rules. destruct r; simpl; auto 6.
    + rewrite E. now left.
Qed.

(** C5. [validate_password] returns the empty list for a password that meets
    all five rules; when exactly one rule is broken it returns that rule's
    message and nothing else; and in every case the message of a rule is in
    the list exactly when that rule is broken, so no test hides another. *)
Theorem validate_password_correct (password : string) :
  ((forall r, satisfies r password) -> validate_password password = []) /\
  (forall r, ~ satisfies r password ->
             (forall r', r' <> r -> satisfies r' password) ->
             validate_password password = [message r]) /\
  (forall r, In (message r) (validate_password password) <-> ~ satisfies r password).
Proof.
  split; [|split].
  - intros H. rewrite validate_password_unfold. unfold rules. cbn [flat_map app].
    rewrite !(proj2 (satisfies_iff _ _) (H _)). reflexivity.
  - intros r Hr Hothers. rewrite validate_password_unfold. unfold rules.
    apply violates_iff in Hr.
    destruct r; cbn [flat_map app];
      repeat match goal with
        | |- context [violates ?r' password] =>
            first [ rewrite Hr
                  | rewrite (proj2 (satisfies_iff r' password) (Hothers r' ltac:(discriminate))) ]
        end; reflexivity.
  - intros r. rewrite In_validate_password. apply violates_iff.
Qed.

End ValidatorFacts.

(** The theorem at the password of the specification's scenario, and at four
    characters short of it. *)
Lemma validate_password_correct_witness :
  validate_password "Secure1!x" = [] /\ validate_password "Secure1x" = [msg_special].
Proof.
  split.
  - apply (proj1 (validate_password_correct "Secure1!x")).
    intros r. apply satisfies_iff. destruct r; reflexivity.
  - apply (proj1 (proj2 (validate_password_correct "Secure1x")) Special).
    + apply violates_iff. reflexivity.
    + intros r' Hne. apply satisfies_iff. destruct r'; try reflexivity.
      now elim Hne.
Defined.

(** ** Token codec and token kinds *)

Ltac run :=
  unfold bind, ret, gets, throw, lift, modify, try_except, any_exception in *;
  cbn [fst snd] in *.

Section TokenFacts.
Context {P : Platform}.

(** What [create_tokens] mints when it returns. *)
Lemma create_tokens_ok (data : list (string * string)) (w w1 : World) (access refresh : text) :
  create_tokens data w = (Ok (access, refresh), w1) ->
  exists s,
    dict_get data "sub" = Ok s /\
    access = jwt_encode
               (mkclaims (Some s)
                  (Some (utcnow w + 60 * ACCESS_TOKEN_EXPIRE_MINUTES (settings w))%Z)
                  (Some "access") (Some (entropy w)))
               (SECRET_KEY (settings w)) (ALGORITHM (settings w)) /\
    refresh = jwt_encode
                (mkclaims (Some s)
                   (Some (utcnow w + 86400 * REFRESH_TOKEN_EXPIRE_DAYS (settings w))%Z)
                   (Some "refresh") (Some (entropy w + 1)%N))
                (SECRET_KEY (settings w)) (ALGORITHM (settings w)) /\
    w1 = set_entropy w (entropy w + 1 + 1).
Proof.
  unfold create_tokens. run.
  destruct (dict_get data "sub") as [s|e] eqn:E; [|discriminate].
  cbn. intros H. injection H as <- <- <-. exists s. repeat split; reflexivity.
Qed.

(** [create_tokens] returns whenever the dict has a subject. *)
Lemma create_tokens_total (subject : string) (w : World) :
  exists access refresh w1,
    create_tokens [("sub", subject)] w = (Ok (access, refresh), w1).
Proof. unfold create_tokens. run. cbn. eauto. Qed.

Lemma jwt_decode_world (token : text) (key : string) (algs : list string) (w w' : World)
    (r : result claims) :
  jwt_decode token key algs w = (r, w') -> w' = w.
Proof.
  unfold jwt_decode. run.
  destruct token as [|[c|j] [|a token]]; try (intros H; now injection H).
  destruct (_ && _); [|intros H; now injection H].
  destruct (exp (jws_claims j)) as [e|]; [|intros H; now injection H].
  destruct (e <=? utcnow w)%Z; intros H; now injection H.
Qed.

(** What a successful decode tells about the token. *)
Lemma jwt_decode_ok (token : text) (key : string) (algs : list string) (w w' : World)
    (c : claims) :
  jwt_decode token key algs w = (Ok c, w') ->
  exists j, token = [Jws j] /\ c = jws_claims j /\ jws_key j = key /\
            In (jws_alg j) algs /\
            match exp c with
            | Some e => (utcnow w < e)%Z
            | None => True
            end.
Proof.
  unfold jwt_decode. run.
  destruct token as [|[ch|j] [|a token]]; try discriminate.
  destruct (String.eqb (jws_key j) key) eqn:Ek; [|discriminate].
  destruct (existsb _ algs) eqn:Ea; [|discriminate]. cbn [andb].
  apply String.eqb_eq in Ek. apply existsb_exists in Ea as (a & Hin & Ha).
  apply String.eqb_eq in Ha. subst a.
  destruct (exp (jws_claims j)) as [e|] eqn:Ee.
  - destruct (e <=? utcnow w)%Z eqn:El; [discriminate|].
    intros H. injection H as <- <-. exists j. rewrite Ee.
    apply Z.leb_gt in El. auto 6.
  - intros H. injection H as <- <-. exists j. rewrite Ee. auto 6.
Qed.

(** C2. Minting returns for every subject and instant, and the access token
    minted at [t] decodes, at an instant before [t] plus the access lifetime,
    to claims with that subject and type access; from that instant on the
    decode raises the expired-signature error. *)
Theorem mint_decode_round_trip (w : World) (subject : string) (t : Z) :
  exists access refresh w1,
    create_tokens [("sub", subject)] (set_utcnow w t) = (Ok (access, refresh), w1) /\
    forall w' : World,
      settings w' = settings w ->
      let ttl := (60 * ACCESS_TOKEN_EXPIRE_MINUTES (settings w))%Z in
      let decode := jwt_decode access (SECRET_KEY (settings w')) [ALGORITHM (settings w')] w' in
      ((utcnow w' < t + ttl)%Z ->
       exists c, decode = (Ok c, w') /\ sub c = Some subject /\ typ c = Some "access") /\
      ((t + ttl <= utcnow w')%Z ->
       exists m, decode = (Raise (ExpiredSignatureError m), w')).
Proof.
  destruct (create_tokens_total subject (set_utcnow w t)) as (access & refresh & w1 & Hm).
  exists access, refresh, w1. split; [exact Hm|].
  apply create_tokens_ok in Hm as (s & Hs & -> & _ & _).
  cbn in Hs. injection Hs as <-. cbn [set_utcnow settings utcnow].
  intros w' Hcfg. cbn zeta. rewrite Hcfg.
  unfold jwt_decode, jwt_encode. run. cbn.
  rewrite !String.eqb_refl. cbn. split; intros Ht.
  - apply Z.leb_gt in Ht. rewrite Ht. eauto.
  - apply Z.leb_le in Ht. rewrite Ht. eauto.
Qed.

Lemma type_differs_false (t : option string) (kind : string) :
  type_differs t kind = false <-> t = Some kind.
Proof.
  destruct t as [t|]; simpl.
  - rewrite negb_false_iff, String.eqb_eq. split; [now intros -> | now intros [= ->]].
  - split; discriminate.
Qed.

(** Every failure of [refresh_token] is a [ValueError], and the world is
    the one the body left. *)
Lemma refresh_token_raises (token : text) (w w' : World) (e : exn) :
  refresh_token token w = (Raise e, w') -> exists m, e = ValueError m.
Proof.
  unfold refresh_token, try_except, any_exception.
  match goal with
  | |- (match ?x with _ => _ end) = _ -> _ => destruct x as [[ts0|e0] w0]
  end; [discriminate|].
  unfold throw. intros H. injection H as <- _. eauto.
Qed.

(** A token that [refresh_token] accepts is a refresh token. *)
Lemma refresh_token_accepts (token : text) (w w' : World) (ts : TokenSchema) :
  refresh_token token w = (Ok ts, w') ->
  exists j, token = [Jws j] /\ typ (jws_claims j) = Some "refresh" /\
            jws_key j = SECRET_KEY (settings w).
Proof.
  unfold refresh_token, try_except, any_exception.
  match goal with
  | |- (match ?x with _ => _ end) = _ -> _ => destruct x as [[ts0|e0] w0] eqn:E
  end; [|discriminate].
  intros _. revert E. run.
  destruct (jwt_decode token _ _ w) as [[c|e] w1] eqn:Ed; [|discriminate].
  apply jwt_decode_ok in Ed as (j & -> & -> & Hk & _).
  destruct (type_differs _ "refresh") eqn:Et; [discriminate|].
  apply type_differs_false in Et. intros _. exists j. auto.
Qed.

(** The refresh operation turns away every token whose type is not refresh. *)
Lemma refresh_token_rejects (j : jws) (w : World) :
  typ (jws_claims j) <> Some "refresh" ->
  exists m, refresh_token [Jws j] w = (Raise (ValueError m), w).
Proof.
  intros Ht. unfold refresh_token, try_except, any_exception.
  match goal with
  | |- exists _, (match ?x with _ => _ end) = _ => destruct x as [[ts0|e0] w0] eqn:E
  end.
  - exfalso. revert E. run.
    destruct (jwt_decode [Jws j] _ _ w) as [[c|e] w1] eqn:Ed; [|discriminate].
    apply jwt_decode_ok in Ed as (j' & [= <-] & -> & _).
    destruct (type_differs _ "refresh") eqn:Et; [discriminate|].
    apply type_differs_false in Et. contradiction.
  - assert (w0 = w) as ->.
    { revert E. run.
      destruct (jwt_decode [Jws j] _ _ w) as [[c|e] w1] eqn:Ed.
      - pose proof (jwt_decode_world _ _ _ _ Ed) as ->.
        destruct (type_differs _ "refresh") eqn:Et.
        + cbn. intros H. now injection H.
        + apply jwt_decode_ok in Ed as (j' & [= <-] & -> & _).
          apply type_differs_false in Et. contradiction.
      - apply jwt_decode_world in Ed as ->. intros H. now injection H. }
    unfold throw. eauto.
Qed.

Lemma jwt_decode_raises (token : text) (key : string) (algs : list string) (w w' : World)
    (e : exn) :
  jwt_decode token key algs w = (Raise e, w') -> is_JWTError e = true.
Proof.
  unfold jwt_decode. run.
  destruct token as [|[c|j] [|a token]]; try (intros [= <- _]; reflexivity).
  destruct (_ && _); [|intros [= <- _]; reflexivity].
  destruct (exp (jws_claims j)) as [x|]; [|discriminate].
  destruct (x <=? utcnow w)%Z; [intros [= <- _]; reflexivity | discriminate].
Qed.

Lemma select_where_world (test : User -> bool) (w w' : World) (r : result (list User)) :
  select_where test w = (r, w') -> w' = w.
Proof. unfold select_where. run. destruct (store w); intros H; now injection H. Qed.

Lemma select_username_world (key : pyval) (w w' : World) (r : result (list User)) :
  select_username key w = (r, w') -> w' = w.
Proof.
  destruct key; simpl; try apply select_where_world.
  run. destruct (select_where _ w) as [[rows|e] w0] eqn:E;
    apply select_where_world in E as ->.
  - destruct bind_entity; intros H; now injection H.
  - intros H; now injection H.
Qed.

Lemma get_by_username_world (key : pyval) (w w' : World) (r : result (option User)) :
  get_by_username key w = (r, w') -> w' = w.
Proof.
  unfold get_by_username. run.
  destruct (select_username key w) as [[rows|e] w0] eqn:E;
    apply select_username_world in E as ->; [|intros H; now injection H].
  destruct (scalar_one_or_none rows); intros H; now injection H.
Qed.

Lemma get_by_email_world (e : string) (w w' : World) (r : result (option User)) :
  get_by_email e w = (r, w') -> w' = w.
Proof.
  unfold get_by_email. run.
  destruct (select_where _ w) as [[rows|x] w0] eqn:E;
    apply select_where_world in E as ->; [|intros H; now injection H].
  destruct (scalar_one_or_none rows); intros H; now injection H.
Qed.

(** A user the directory returns for a name is the one row of that name. *)
Lemma get_by_username_some (name : string) (w w' : World) (u : User) :
  get_by_username name w = (Ok (Some u), w') ->
  exists rows row,
    store w = Reachable rows /\ In row rows /\ username row = name /\ u = to_entity row.
Proof.
  unfold get_by_username, select_username, select_where. run.
  destruct (store w) as [rows|] eqn:Es; [|discriminate].
  destruct (filter _ rows) as [|row [|row' rest]] eqn:Ef; cbn; try discriminate.
  intros [= <- _]. exists rows, row.
  assert (In row (filter (fun r => String.eqb (username r) name) rows)) as Hin
    by (rewrite Ef; now left).
  apply filter_In in Hin as [Hin Hn]. apply String.eqb_eq in Hn. auto.
Qed.

Lemma split_space_nonempty (s : text) : split_space s <> [].
Proof.
  induction s as [|a s IH]; [discriminate|].
  destruct a as [c|j]; simpl.
  - destruct c as [[] [] [] [] [] [] [] []];
      try discriminate; destruct (split_space s); discriminate.
  - destruct (split_space s); discriminate.
Qed.

Lemma atom_eqb_Ch (c : ascii) (a : atom) : atom_eqb (Ch c) a = true -> a = Ch c.
Proof. destruct a; simpl; [|discriminate]. intros H. apply Ascii.eqb_eq in H. now subst. Qed.

(** After the prefix [Bearer ] there is a second piece. *)
Lemma bearer_second_piece (h : text) :
  startswith (text_of "Bearer ") h = true ->
  exists first t rest, split_space h = first :: t :: rest.
Proof.
  cbn [text_of startswith].
  repeat (destruct h as [|? h]; [discriminate|];
          let H := fresh in
          intros H; apply andb_true_iff in H as [H ?]; apply atom_eqb_Ch in H; subst;
          match goal with H' : _ = true |- _ => revert H' end).
  intros _. cbn [split_space].
  destruct (split_space h) as [|t rest] eqn:E; [now apply split_space_nonempty in E|].
  eauto.
Qed.

(** Taking the token out of a request neither fails nor touches the world. *)
Lemma extract_token_total (request : Request) (w : World) :
  exists token, extract_token request w = (Ok token, w).
Proof.
  unfold extract_token.
  destruct (negb (truthy (cookies_get request "access_token"))); [|now eexists].
  destruct (headers_get request "Authorization") as [h|]; [|now eexists].
  destruct (truthy (Some h) && startswith (text_of "Bearer ") h) eqn:E; [|now eexists].
  apply andb_true_iff in E as [_ E].
  apply bearer_second_piece in E as (first & t & rest & ->). now eexists.
Qed.

Lemma extract_token_world (request : Request) (w w' : World) (r : result (option text)) :
  extract_token request w = (r, w') -> w' = w.
Proof.
  destruct (extract_token_total request w) as (token & ->). intros H; now injection H.
Qed.

(** Extraction reads the request only. *)
Lemma extract_token_any_world (request : Request) (w w' : World) (r : result (option text)) :
  extract_token request w = (r, w) -> extract_token request w' = (r, w').
Proof.
  unfold extract_token.
  destruct (negb (truthy (cookies_get request "access_token")));
    [|unfold ret; intros [= <-]; reflexivity].
  destruct (headers_get request "Authorization") as [h|];
    [|unfold ret; intros [= <-]; reflexivity].
  destruct (truthy (Some h) && startswith (text_of "Bearer ") h);
    [|unfold ret; intros [= <-]; reflexivity].
  destruct (split_space h) as [|? [|? ?]]; unfold ret, throw; intros [= <-]; reflexivity.
Qed.

(** [get_current_user], one case of the source at a time. *)
Lemma get_current_user_no_token (request : Request) (w : World) (token : option text) :
  extract_token request w = (Ok token, w) -> truthy token = false ->
  get_current_user request w = (Ok None, w).
Proof.
  intros He Ht. unfold get_current_user, bind. rewrite He.
  destruct token as [[|a t]|]; try reflexivity. discriminate.
Qed.

Lemma get_current_user_token (request : Request) (w : World) (token : text) :
  extract_token request w = (Ok (Some token), w) -> truthy (Some token) = true ->
  get_current_user request w =
  match jwt_decode token (SECRET_KEY (settings w)) [ALGORITHM (settings w)] w with
  | (Ok c, _) =>
      if no_subject (sub c) || type_differs (typ c) "access" then (Ok None, w)
      else
        match sub c with
        | Some name => get_by_username name w
        | None => (Ok None, w)
        end
  | (Raise _, _) => (Ok None, w)
  end.
Proof.
  intros He Ht. unfold get_current_user. unfold bind at 1. rewrite He.
  destruct token as [|a t]; [discriminate|].
  unfold try_except. run.
  destruct (jwt_decode (a :: t) _ _ w) as [[c|e] w0] eqn:Ed.
  - pose proof (jwt_decode_world _ _ _ _ Ed) as ->.
    destruct (no_subject (sub c) || type_differs (typ c) "access"); [reflexivity|].
    destruct (sub c) as [name|]; [|reflexivity].
    destruct (get_by_username name w) as [[u|e] w1] eqn:Eg; [reflexivity|].
    unfold get_by_username, select_username, select_where in Eg. run.
    destruct (store w) as [rows|]; [|injection Eg as <- <-; reflexivity].
    destruct (filter _ rows) as [|? [|? ?]]; cbn in Eg; try discriminate.
    injection Eg as <- <-. reflexivity.
  - pose proof (jwt_decode_world _ _ _ _ Ed) as ->.
    now rewrite (jwt_decode_raises _ _ _ _ Ed).
Qed.

(** What an identity returned by [get_current_user] rests on. *)
Lemma get_current_user_some (request : Request) (w w' : World) (u : User) :
  get_current_user request w = (Ok (Some u), w') ->
  exists j name,
    extract_token request w = (Ok (Some [Jws j]), w) /\
    jws_key j = SECRET_KEY (settings w) /\
    jws_alg j = ALGORITHM (settings w) /\
    match exp (jws_claims j) with
    | Some e => (utcnow w < e)%Z
    | None => True
    end /\
    typ (jws_claims j) = Some "access" /\
    sub (jws_claims j) = Some name /\ name <> "" /\
    get_by_username name w = (Ok (Some u), w').
Proof.
  intros H. destruct (extract_token_total request w) as (token & He).
  destruct (truthy token) eqn:Et.
  - destruct token as [token|]; [|discriminate].
    rewrite (get_current_user_token _ He Et) in H.
    destruct (jwt_decode token _ _ w) as [[c|e] w0] eqn:Ed; [|discriminate].
    apply jwt_decode_ok in Ed as (j & -> & -> & Hk & Ha & Hexp).
    destruct (no_subject _ || type_differs _ _) eqn:Ec; [discriminate|].
    apply orb_false_iff in Ec as [Hs Hty]. apply type_differs_false in Hty.
    destruct (sub (jws_claims j)) as [name|] eqn:Esub; [|discriminate].
    exists j, name. destruct Ha as [Ha|[]].
    repeat split; auto. intros ->. discriminate.
  - rewrite (get_current_user_no_token _ He Et) in H. discriminate.
Qed.

(** C1. A token minted as an access token is turned away by the refresh
    operation, with its refresh-invalid outcome (a [ValueError], 401 at the
    route), and a token minted as a refresh token makes session
    authentication answer anonymous, in every world; and whatever token the
    refresh operation accepts has type refresh, whatever token session
    authentication accepts has type access. *)
Theorem token_kinds_never_confused (data : list (string * string)) (w w1 : World)
    (access refresh : text) :
  create_tokens data w = (Ok (access, refresh), w1) ->
  forall w2 : World,
    (exists m, refresh_token access w2 = (Raise (ValueError m), w2) /\
               refresh_route access w2 = (Raise (HTTPException 401 (Detail m)), w2)) /\
    (forall request, extract_token request w2 = (Ok (Some refresh), w2) ->
                     get_current_user request w2 = (Ok None, w2)) /\
    (forall token ts w3, refresh_token token w2 = (Ok ts, w3) ->
                         exists j, token = [Jws j] /\ typ (jws_claims j) = Some "refresh") /\
    (forall request u w3, get_current_user request w2 = (Ok (Some u), w3) ->
                          exists j, extract_token request w2 = (Ok (Some [Jws j]), w2) /\
                                    typ (jws_claims j) = Some "access").
Proof.
  intros Hm w2. apply create_tokens_ok in Hm as (s & _ & -> & -> & _).
  unfold jwt_encode. repeat split.
  - destruct (refresh_token_rejects
                (mkjws (ALGORITHM (settings w))
                   (mkclaims (Some s)
                      (Some (utcnow w + 60 * ACCESS_TOKEN_EXPIRE_MINUTES (settings w))%Z)
                      (Some "access") (Some (entropy w)))
                   (SECRET_KEY (settings w))) w2) as (m & Hr); [discriminate|].
    exists m. split; [exact Hr|].
    unfold refresh_route, try_except. rewrite Hr. reflexivity.
  - intros request He. rewrite (get_current_user_token _ He eq_refl).
    destruct (jwt_decode _ _ _ w2) as [[c|e] w0] eqn:Ed; [|reflexivity].
    apply jwt_decode_ok in Ed as (j & [= <-] & -> & _).
    cbn [jws_claims sub typ].
    replace (type_differs (Some "refresh") "access") with true by reflexivity.
    now rewrite orb_true_r.
  - intros token ts w3 Hr. apply refresh_token_accepts in Hr as (j & -> & Ht & _). eauto.
  - intros request u w3 Hg.
    apply get_current_user_some in Hg as (j & name & He & _ & _ & _ & Ht & _). eauto.
Qed.

(** C7, as amended. Session authentication never fails on account of the
    request or its token: taking the token out never raises; it answers
    anonymous when there is no token, when the token does not decode, when
    the decoded claims lack a subject or are not of type access, and when the
    directory has no user of the subject's name; an identity it returns is the
    directory's user for the subject of a token signed with the service's key
    and algorithm, unexpired, of type access; and the only exception it lets
    out is one the directory lookup raised. *)
Theorem session_authentication_fail_closed (request : Request) (w : World) :
  let decode token :=
    fst (jwt_decode token (SECRET_KEY (settings w)) [ALGORITHM (settings w)] w) in
  (exists token, extract_token request w = (Ok token, w)) /\
  (forall token, extract_token request w = (Ok token, w) -> truthy token = false ->
                 get_current_user request w = (Ok None, w)) /\
  (forall token e, extract_token request w = (Ok (Some token), w) ->
                   decode token = Raise e ->
                   get_current_user request w = (Ok None, w)) /\
  (forall token c, extract_token request w = (Ok (Some token), w) ->
                   decode token = Ok c ->
                   no_subject (sub c) = true \/ typ c <> Some "access" ->
                   get_current_user request w = (Ok None, w)) /\
  (forall token c name, extract_token request w = (Ok (Some token), w) ->
                        decode token = Ok c -> sub c = Some name ->
                        fst (get_by_username name w) = Ok None ->
                        get_current_user request w = (Ok None, w)) /\
  (forall u w', get_current_user request w = (Ok (Some u), w') ->
                w' = w /\
                exists j name rows row,
                  extract_token request w = (Ok (Some [Jws j]), w) /\
                  jws_key j = SECRET_KEY (settings w) /\
                  jws_alg j = ALGORITHM (settings w) /\
                  match exp (jws_claims j) with
                  | Some e => (utcnow w < e)%Z
                  | None => True
                  end /\
                  typ (jws_claims j) = Some "access" /\
                  sub (jws_claims j) = Some name /\
                  store w = Reachable rows /\ In row rows /\ username row = name /\
                  u = to_entity row) /\
  (forall e w', get_current_user request w = (Raise e, w') ->
                w' = w /\ exists name : string, get_by_username name w = (Raise e, w)).
Proof.
  cbn zeta. split; [apply extract_token_total|].
  split; [apply get_current_user_no_token|].
  assert (forall token (c : claims), fst (jwt_decode token (SECRET_KEY (settings w))
                                  [ALGORITHM (settings w)] w) = Ok c ->
          truthy (Some token) = true) as Htruthy.
  { intros token c Hd.
    destruct (jwt_decode token _ _ w) as [r w0] eqn:Ed. cbn in Hd. subst r.
    apply jwt_decode_ok in Ed as (j & -> & _). reflexivity. }
  repeat split.
  - intros token e He Hd. destruct token as [|a t].
    + now apply (get_current_user_no_token _ He).
    + rewrite (get_current_user_token _ He eq_refl).
      destruct (jwt_decode _ _ _ w) as [r w0]. cbn in Hd. now subst r.
  - intros token c He Hd Hc.
    rewrite (get_current_user_token _ He (Htruthy _ _ Hd)).
    destruct (jwt_decode _ _ _ w) as [r w0]. cbn in Hd. subst r.
    destruct Hc as [-> | Hc]; [reflexivity|].
    destruct (type_differs (typ c) "access") eqn:Et.
    + now rewrite orb_true_r.
    + apply type_differs_false in Et. contradiction.
  - intros token c name He Hd Hs Hg.
    rewrite (get_current_user_token _ He (Htruthy _ _ Hd)).
    destruct (jwt_decode _ _ _ w) as [r w0]. cbn in Hd. subst r.
    destruct (_ || _); [reflexivity|]. rewrite Hs.
    destruct (get_by_username name w) as [r w1] eqn:Eg. cbn in Hg. subst r.
    now rewrite (get_by_username_world _ _ Eg).
  - apply get_current_user_some in H as (j & name & _ & _ & _ & _ & _ & _ & _ & Hg).
    now apply get_by_username_world in Hg.
  - apply get_current_user_some in H as (j & name & He & Hk & Ha & Hx & Ht & Hs & _ & Hg).
    destruct (get_by_username_some _ _ Hg) as (rows & row & Hst & Hin & Hn & Hu).
    exists j, name, rows, row. auto 12.
  - destruct (extract_token_total request w) as (token & He).
    destruct (truthy token) eqn:Et.
    + destruct token as [token|]; [|discriminate].
      rewrite (get_current_user_token _ He Et) in H.
      destruct (jwt_decode token _ _ w) as [[c|x] w0]; [|discriminate].
      destruct (_ || _); [discriminate|].
      destruct (sub c); [|discriminate]. now apply get_by_username_world in H.
    + rewrite (get_current_user_no_token _ He Et) in H. discriminate.
  - destruct (extract_token_total request w) as (token & He).
    destruct (truthy token) eqn:Et.
    + destruct token as [token|]; [|discriminate].
      rewrite (get_current_user_token _ He Et) in H.
      destruct (jwt_decode token _ _ w) as [[c|x] w0]; [|discriminate].
      destruct (_ || _); [discriminate|].
      destruct (sub c) as [name|]; [|discriminate]. exists name.
      now rewrite <- (get_by_username_world _ _ H) at 2.
    + rewrite (get_current_user_no_token _ He Et) in H. discriminate.
Qed.

(** An identity comes with the world unchanged and the users table in reach. *)
Lemma get_by_username_world_of_current (request : Request) (w w' : World) (u : User) :
  get_current_user request w = (Ok (Some u), w') ->
  w' = w /\ exists rows, store w = Reachable rows.
Proof.
  intros H. apply get_current_user_some in H as (j & name & _ & _ & _ & _ & _ & _ & _ & Hg).
  split; [now apply get_by_username_world in Hg|].
  apply get_by_username_some in Hg as (rows & _ & Hs & _). eauto.
Qed.

End TokenFacts.

(** The pair minted for alice, at work: her access token names her, and the
    refresh operation mints a new pair from her refresh token. *)
Example alice_is_recognised :
  fst (get_current_user (with_bearer (fst alice_tokens)) world0) = Ok (Some alice) /\
  fst (get_current_user (with_cookie "access_token" (fst alice_tokens)) world0) = Ok (Some alice).
Proof. split; reflexivity. Qed.

Example alice_refreshes :
  exists ts, fst (refresh_token (snd alice_tokens) world0) = Ok ts.
Proof. eexists. reflexivity. Qed.

Lemma token_kinds_never_confused_witness :
  (exists m, refresh_token (fst alice_tokens) world0 = (Raise (ValueError m), world0) /\
             refresh_route (fst alice_tokens) world0
             = (Raise (HTTPException 401 (Detail m)), world0)) /\
  get_current_user (with_bearer (snd alice_tokens)) world0 = (Ok None, world0).
Proof.
  assert (create_tokens [("sub", "alice")] world0
          = (Ok (fst alice_tokens, snd alice_tokens),
             snd (create_tokens [("sub", "alice")] world0))) as Hm by reflexivity.
  destruct (token_kinds_never_confused _ _ Hm world0) as (Ha & Hb & _).
  split; [exact Ha|]. apply Hb. reflexivity.
Defined.

Lemma mint_decode_round_trip_witness :
  exists access refresh w1,
    create_tokens [("sub", "alice")] (set_utcnow world0 1000000)
    = (Ok (access, refresh), w1) /\
    (exists c, jwt_decode access (SECRET_KEY default_settings) [ALGORITHM default_settings]
                 (set_utcnow world0 1003599) = (Ok c, set_utcnow world0 1003599) /\
               sub c = Some "alice" /\ typ c = Some "access") /\
    (exists m, jwt_decode access (SECRET_KEY default_settings) [ALGORITHM default_settings]
                 (set_utcnow world0 1003600)
               = (Raise (ExpiredSignatureError m), set_utcnow world0 1003600)).
Proof.
  destruct (mint_decode_round_trip world0 "alice" 1000000)
    as (access & refresh & w1 & Hm & Hd).
  exists access, refresh, w1. split; [exact Hm|]. split.
  - apply (Hd (set_utcnow world0 1003599) eq_refl). reflexivity.
  - apply (Hd (set_utcnow world0 1003600) eq_refl). discriminate.
Defined.

(** Once alice is deleted, her access token, still unexpired, names nobody. *)
Example deleted_user_is_anonymous :
  fst (delete "alice" world0) = Ok true /\
  fst (get_current_user (with_bearer (fst alice_tokens)) (snd (delete "alice" world0)))
  = Ok None.
Proof. split; reflexivity. Qed.

(** The C7 of the specification fails on a valid token when the directory
    cannot be reached: the lookup's exception leaves [get_current_user]. *)
Lemma session_authentication_errors :
  get_current_user (with_bearer (fst alice_tokens)) world_down
  = (Raise (OperationalError "connection refused"), world_down).
Proof. reflexivity. Qed.

Lemma session_authentication_fail_closed_witness :
  get_current_user (with_bearer (snd alice_tokens)) world0 = (Ok None, world0) /\
  get_current_user (with_bearer (text_of "garbage")) world0 = (Ok None, world0) /\
  get_current_user (mkRequest "GET" [] []) world0 = (Ok None, world0) /\
  exists name : string,
    get_by_username name world_down = (Raise (OperationalError "connection refused"), world_down).
Proof.
  split; [|split; [|split]].
  - destruct (session_authentication_fail_closed (with_bearer (snd alice_tokens)) world0)
      as (_ & _ & _ & H & _).
    apply (H (snd alice_tokens) (jws_claims
                                   match snd alice_tokens with
                                   | [Jws j] => j
                                   | _ => mkjws "" (mkclaims None None None None) ""
                                   end)); [reflexivity | reflexivity | right; discriminate].
  - destruct (session_authentication_fail_closed (with_bearer (text_of "garbage")) world0)
      as (_ & _ & H & _).
    apply (H (text_of "garbage") (JWTError "Not enough segments")); reflexivity.
  - destruct (session_authentication_fail_closed (mkRequest "GET" [] []) world0)
      as (_ & H & _).
    apply (H None); reflexivity.
  - destruct (session_authentication_fail_closed (with_bearer (fst alice_tokens)) world_down)
      as (_ & _ & _ & _ & _ & _ & H).
    destruct (H (OperationalError "connection refused") world_down eq_refl) as (_ & Hn).
    exact Hn.
Defined.

(** ** Login, logout *)

Section AuthFacts.
Context {P : Platform}.

(** [authenticate_user] returns, whatever happens inside it. *)
Lemma authenticate_user_returns (name password : string) (w : World) :
  exists tokens w', authenticate_user name password w = (Ok tokens, w').
Proof.
  unfold authenticate_user, try_except, any_exception.
  match goal with
  | |- exists _ _, (match ?x with _ => _ end) = _ => destruct x as [[ts|e] w0]
  end; unfold ret; eauto.
Qed.

(** The one failure of the login route. *)
Lemma login_raises (name password : string) (w w' : World) (e : exn) :
  login name password w = (Raise e, w') -> e = invalid_credentials.
Proof.
  unfold login, bind.
  destruct (authenticate_user_returns name password w) as (tokens & w0 & ->).
  destruct tokens; unfold ret, throw; [discriminate | now intros [= <- _]].
Qed.

(** C3. A login whose user name the directory does not hold, and a login
    whose password the stored digest does not verify, end alike: the route
    raises the same 401 with the same message, and the response is the same. *)
Theorem login_fails_uniformly (w : World) (name password : string) :
  (get_by_username name w = (Ok None, w) \/
   exists user, get_by_username name w = (Ok (Some user), w) /\
                checkpw password (password_hash user) = Ok false) ->
  login name password w = (Raise invalid_credentials, w) /\
  serve (login name password) w
  = JSONResponse 401 (ErrorOf (Detail "Неверное имя пользователя или пароль")).
Proof.
  intros H.
  assert (login name password w = (Raise invalid_credentials, w)) as Hl.
  { unfold login, authenticate_user, try_except, verify_password. run.
    destruct H as [-> | (user & -> & Hc)]; [reflexivity|].
    rewrite Hc. reflexivity. }
  split; [exact Hl|]. unfold serve. now rewrite Hl.
Qed.

(** C4, as amended. When the directory cannot be reached, [authenticate_user]
    swallows the fault and the login route answers as for bad credentials,
    with the same 401; no failure of a login is any other exception. *)
Theorem login_swallows_directory_fault (w : World) (name password : string) :
  store w = Unreachable ->
  login name password w = (Raise invalid_credentials, w) /\
  serve (login name password) w
  = JSONResponse 401 (ErrorOf (Detail "Неверное имя пользователя или пароль")) /\
  forall w0 e w', login name password w0 = (Raise e, w') -> e = invalid_credentials.
Proof.
  intros Hs.
  assert (login name password w = (Raise invalid_credentials, w)) as Hl.
  { unfold login, authenticate_user, try_except, get_by_username, select_username,
      select_where. run. rewrite Hs. reflexivity. }
  split; [exact Hl|]. split; [unfold serve; now rewrite Hl|].
  intros w0 e w'. apply login_raises.
Qed.

(** C8. [logout] returns its message for every token and response and
    leaves the world as it was; so does the route; hence the refresh
    operation does with a token after the logout, at any instant, what it
    does with it without the logout. *)
Theorem logout_invalidates_nothing (w : World) (token : option text)
    (response : option Response) (refresh : text) (t : Z) :
  (exists r, logout token response w = (Ok ("Вы успешно вышли из системы", r), w)) /\
  logout_route refresh w = (Ok tt, w) /\
  serve (logout_route refresh) w = Returned tt /\
  refresh_token refresh (snd (logout_route refresh w)) = refresh_token refresh w /\
  refresh_token refresh (set_utcnow (snd (logout_route refresh w)) t)
  = refresh_token refresh (set_utcnow w t).
Proof.
  assert (logout_route refresh w = (Ok tt, w)) as Hr.
  { unfold logout_route, logout. run. destruct (truthy (Some refresh)); reflexivity. }
  split; [|split; [exact Hr|]].
  - unfold logout. run. destruct (truthy token); eauto.
  - unfold serve. rewrite Hr. auto.
Qed.

End AuthFacts.

(** The three logins of the specification's scenario, and one with the
    directory down. *)
Example login_scenario :
  (exists ts, serve (login "alice" "Secure1!x") world0 = Returned ts) /\
  serve (login "alice" "wrong") world0 = serve (login "carol" "wrong") world0.
Proof. split; [eexists|]; reflexivity. Qed.

Lemma login_fails_uniformly_witness :
  login "carol" "Secure1!x" world0 = (Raise invalid_credentials, world0) /\
  login "alice" "wrong" world0 = (Raise invalid_credentials, world0).
Proof.
  split.
  - apply (@login_fails_uniformly _ world0 "carol" "Secure1!x"). left. reflexivity.
  - apply (@login_fails_uniformly _ world0 "alice" "wrong"). right.
    exists alice. split; reflexivity.
Defined.

(** The C4 of the specification fails: with the directory down, a login with
    the right password is answered 401, not 5xx. *)
Lemma login_conflates_directory_fault :
  serve (login "alice" "Secure1!x") world_down
  = JSONResponse 401 (ErrorOf (Detail "Неверное имя пользователя или пароль")) /\
  (exists ts, serve (login "alice" "Secure1!x") world0 = Returned ts).
Proof. split; [|eexists]; reflexivity. Qed.

Lemma login_swallows_directory_fault_witness :
  login "alice" "Secure1!x" world_down = (Raise invalid_credentials, world_down).
Proof.
  apply (@login_swallows_directory_fault _ world_down "alice" "Secure1!x"). reflexivity.
Defined.

(** Alice's refresh token still refreshes after she logged out with it. *)
Example refresh_after_logout :
  exists ts,
    fst (refresh_token (snd alice_tokens) (snd (logout_route (snd alice_tokens) world0)))
    = Ok ts.
Proof. eexists. reflexivity. Qed.

(** ** Profile update *)

Section UpdateFacts.
Context {P : Platform}.

Lemma select_where_raises (test : User -> bool) (w w' : World) (e : exn) :
  select_where test w = (Raise e, w') -> forall s d, e <> HTTPException s d.
Proof.
  unfold select_where. run. destruct (store w); [discriminate|].
  intros [= <- _] s d. discriminate.
Qed.

Lemma scalar_one_or_none_raises (rows : list User) (e : exn) :
  scalar_one_or_none rows = Raise e -> forall s d, e <> HTTPException s d.
Proof.
  destruct rows as [|r [|r' rows]]; try discriminate.
  intros [= <-] s d. discriminate.
Qed.

Lemma get_by_username_raises (name : string) (w w' : World) (e : exn) :
  get_by_username name w = (Raise e, w') -> forall s d, e <> HTTPException s d.
Proof.
  unfold get_by_username, select_username. run.
  destruct (select_where _ w) as [[rows|x] w0] eqn:E.
  - destruct (scalar_one_or_none rows) eqn:Es; [discriminate|].
    intros [= <- _]. now apply (scalar_one_or_none_raises rows).
  - intros [= <- _]. now apply (select_where_raises _ _ E).
Qed.

Lemma get_by_email_raises (a : string) (w w' : World) (e : exn) :
  get_by_email a w = (Raise e, w') -> forall s d, e <> HTTPException s d.
Proof.
  unfold get_by_email. run.
  destruct (select_where _ w) as [[rows|x] w0] eqn:E.
  - destruct (scalar_one_or_none rows) eqn:Es; [discriminate|].
    intros [= <- _]. now apply (scalar_one_or_none_raises rows).
  - intros [= <- _]. now apply (select_where_raises _ _ E).
Qed.

(** The repository's [update] raises no [HTTPException], and every run of it
    is on the log. *)
Lemma update_raises (entity : User) (w w' : World) (e : exn) :
  update entity w = (Raise e, w') -> forall s d, e <> HTTPException s d.
Proof.
  unfold update. run. unfold select_where. run. unfold log_call, set_store. cbn [store].
  destruct (store w) as [all|] eqn:Est; [|intros [= <- _] s d; discriminate].
  destruct (scalar_one_or_none _) as [[r|]|x] eqn:Es; cbn [store]; rewrite ?Est.
  - match goal with
    | |- (match ?l with _ => _ end) _ = _ -> _ => destruct l
    end; [|discriminate].
    intros [= <- _] s d. discriminate.
  - intros [= <- _] s d. discriminate.
  - intros [= <- _]. now apply (scalar_one_or_none_raises _ Es).
Qed.

Lemma update_logged (entity : User) (w w' : World) (r : result User) :
  update entity w = (r, w') -> In (CallUpdate entity) (repo_log w').
Proof.
  unfold update. run. unfold select_where. run. unfold log_call, set_store. cbn [store].
  assert (In (CallUpdate entity) (repo_log w ++ [CallUpdate entity])) as Hin
    by (apply in_or_app; right; now left).
  destruct (store w) as [all|] eqn:Est; [|now intros [= _ <-]].
  destruct (scalar_one_or_none _) as [[r0|]|x]; cbn [store]; rewrite ?Est;
    try (now intros [= _ <-]).
  match goal with
  | |- (match ?l with _ => _ end) _ = _ -> _ => destruct l
  end; now intros [= _ <-].
Qed.

(** C10. When [update_user] fails with an [HTTPException], and it has no
    other than user not found, email conflict and the two validation
    failures, the users table and the log of repository calls are as they
    were: [update] was not called. *)
Theorem update_user_atomic_on_error (w w' : World) (name : string)
    (new_email new_password : option string) (new_date_of_birth : option date)
    (status : Z) (d : detail) :
  update_user name new_email new_password new_date_of_birth w
  = (Raise (HTTPException status d), w') ->
  store w' = store w /\ repo_log w' = repo_log w /\
  (HTTPException status d = not_found \/
   HTTPException status d = email_conflict \/
   (exists p, new_password = Some p /\
              HTTPException status d = bad_request (validate_password p)) \/
   (exists errors, new_date_of_birth <> None /\
                   HTTPException status d = bad_request errors)).
Proof.
  unfold update_user. unfold bind at 1.
  destruct (get_by_username name w) as [[[user|]|e0] w0] eqn:Eg;
    pose proof (get_by_username_world _ _ Eg) as ->.
  2: { unfold throw. intros [= <- <- <-]. auto. }
  2: { intros [= -> _]. exfalso. eapply (@get_by_username_raises _ _ _ _ Eg); reflexivity. }
  clear Eg. unfold bind at 1.
  match goal with
  | |- (let (r, w') := ?c w in _) = _ -> _ => destruct (c w) as [[user1|e1] w1] eqn:E1
  end.
  2: { intros [= -> <-]. revert E1. destruct new_email as [a|]; [|discriminate].
       run. destruct (get_by_email a w) as [[[other|]|x] w2] eqn:Ee;
         pose proof (get_by_email_world _ _ Ee) as ->; try discriminate.
       - destruct (negb _); [|discriminate]. intros [= <- <- <-]. auto.
       - intros [= -> <-]. exfalso. eapply (@get_by_email_raises _ _ _ _ Ee); reflexivity. }
  assert (w1 = w) as ->.
  { revert E1. destruct new_email as [a|]; [|now intros [= _ <-]].
    run. destruct (get_by_email a w) as [[[other|]|x] w2] eqn:Ee;
      pose proof (get_by_email_world _ _ Ee) as ->; try (now intros [= _ <-]).
    destruct (negb _); now intros [= _ <-]. }
  clear E1. unfold bind at 1.
  match goal with
  | |- (let (r, w') := ?c w in _) = _ -> _ => destruct (c w) as [[user2|e2] w2] eqn:E2
  end.
  2: { intros [= -> <-]. revert E2. destruct new_password as [p|]; [|discriminate].
       destruct (nonempty (validate_password p)); [|discriminate].
       unfold throw. intros [= <- <- <-]. split; [reflexivity|]. split; [reflexivity|].
       right. right. left. eauto. }
  assert (store w2 = store w /\ repo_log w2 = repo_log w /\ today w2 = today w) as (Hs & Hl & Ht).
  { revert E2. destruct new_password as [p|]; [|now intros [= _ <-]].
    destruct (nonempty (validate_password p)); [discriminate|].
    unfold hash_password, gensalt, uuid4. run. now intros [= _ <-]. }
  clear E2. unfold bind at 1.
  match goal with
  | |- (let (r, w') := ?c w2 in _) = _ -> _ => destruct (c w2) as [[user3|e3] w3] eqn:E3
  end.
  2: { intros [= -> <-]. revert E3. destruct new_date_of_birth as [dob|]; [|discriminate].
       run. destruct (nonempty _); [|discriminate].
       intros [= <- <- <-]. split; [exact Hs|]. split; [exact Hl|].
       right. right. right. eexists. split; [discriminate | reflexivity]. }
  unfold bind.
  destruct (update user3 w3) as [[updated|e4] w4] eqn:Eu; [discriminate|].
  intros [= -> _]. exfalso. eapply (@update_raises _ _ _ _ Eu); reflexivity.
Qed.

End UpdateFacts.

(** The four failures at work, each leaving the world untouched; and a
    success, which is on the log. *)
Lemma update_user_atomic_on_error_witness :
  (store (snd (update_user "carol" None None None world0)) = store world0 /\
   repo_log (snd (update_user "carol" None None None world0)) = []) /\
  (store (snd (update_user "alice" (Some "bob@example.com") None None world0)) = store world0 /\
   repo_log (snd (update_user "alice" (Some "bob@example.com") None None world0)) = []) /\
  (store (snd (update_user "alice" (Some "a@example.com") (Some "weak") None world0))
   = store world0 /\
   repo_log (snd (update_user "alice" (Some "a@example.com") (Some "weak") None world0)) = []) /\
  (store (snd (update_user "alice" (Some "a@example.com") (Some "Secure2!y")
                 (Some (mkdate 2030 1 1)) world0)) = store world0 /\
   repo_log (snd (update_user "alice" (Some "a@example.com") (Some "Secure2!y")
                    (Some (mkdate 2030 1 1)) world0)) = []).
Proof.
  pose proof (@update_user_atomic_on_error _ world0 _ "carol" None None None
                404 (Detail "Пользователь не найден") eq_refl) as (H1 & H1' & _).
  pose proof (@update_user_atomic_on_error _ world0 _ "alice" (Some "bob@example.com")
                None None 409 (Detail "Пользователь с таким email уже существует") eq_refl)
    as (H2 & H2' & _).
  pose proof (@update_user_atomic_on_error _ world0 _ "alice" (Some "a@example.com")
                (Some "weak") None 400 (DetailErrors (validate_password "weak")) eq_refl)
    as (H3 & H3' & _).
  pose proof (@update_user_atomic_on_error _ world0 _ "alice" (Some "a@example.com")
                (Some "Secure2!y") (Some (mkdate 2030 1 1)) 400
                (DetailErrors ["Дата рождения не может быть в будущем"]) eq_refl)
    as (H4 & H4' & _).
  exact (conj (conj H1 H1') (conj (conj H2 H2') (conj (conj H3 H3') (conj H4 H4')))).
Defined.

Example update_user_succeeds :
  exists info w',
    update_user "alice" (Some "a@example.com") (Some "Secure2!y") (Some (mkdate 2001 2 3)) world0
    = (Ok info, w') /\
    info_email info = "a@example.com" /\
    repo_log w' <> [] /\ store w' <> store world0.
Proof. eexists. eexists. split; [reflexivity|]. repeat split; discriminate. Qed.

(** ** CSRF guard *)

Lemma option_eqb_eq {A} (eqb : A -> A -> bool) (a b : option A) :
  (forall x y, eqb x y = true -> x = y) -> option_eqb eqb a b = true -> a = b.
Proof.
  intros H. destruct a, b; simpl; try discriminate; [|reflexivity].
  intros E. now rewrite (H _ _ E).
Qed.

Lemma claims_eqb_eq (a b : claims) : claims_eqb a b = true -> a = b.
Proof.
  unfold claims_eqb. destruct a, b; cbn [sub exp typ jti].
  rewrite !andb_true_iff. intros [[[H1 H2] H3] H4].
  apply option_eqb_eq in H1; [|intros x y; apply String.eqb_eq].
  apply option_eqb_eq in H2; [|intros x y; apply Z.eqb_eq].
  apply option_eqb_eq in H3; [|intros x y; apply String.eqb_eq].
  apply option_eqb_eq in H4; [|intros x y; apply N.eqb_eq].
  congruence.
Qed.

Lemma atom_eqb_eq (a b : atom) : atom_eqb a b = true -> a = b.
Proof.
  destruct a as [c|j], b as [c'|j']; simpl; try discriminate.
  - intros H. apply Ascii.eqb_eq in H. congruence.
  - unfold jws_eqb. destruct j, j'; cbn [jws_alg jws_claims jws_key].
    rewrite !andb_true_iff. intros [[H1 H2] H3].
    apply String.eqb_eq in H1, H3. apply claims_eqb_eq in H2. congruence.
Qed.

Lemma text_eqb_eq (a b : text) : text_eqb a b = true -> a = b.
Proof.
  revert b. induction a as [|x a IH]; intros [|y b]; simpl; try discriminate; [reflexivity|].
  rewrite andb_true_iff. intros [H1 H2]. apply atom_eqb_eq in H1. apply IH in H2. congruence.
Qed.

Section CsrfFacts.
Context {P : Platform}.

(** C6, as amended. A request whose referer holds [/docs] goes to its
    handler unchecked.  Any other POST, PUT or DELETE request is answered 403
    without its handler being run when the [csrf_token] cookie or the
    [X-CSRF-Token] header is absent or empty, and is stopped by an exception,
    the same for every handler and with the world untouched, whenever cookie
    and header differ. *)
Theorem csrf_protect_guards (module : list string) (request : Request) :
  (from_docs request = true ->
   forall A (call_next : Request -> M A) w,
     csrf_protect module request call_next w = call_next request w) /\
  (from_docs request = false -> state_changing (method request) = true ->
   let cookie := cookies_get request "csrf_token" in
   let header := headers_get request "X-CSRF-Token" in
   (truthy cookie = false \/ truthy header = false ->
    forall A (call_next : Request -> M A) w,
      csrf_protect module request call_next w
      = (Raise (HTTPException 403 (Detail "CSRF token missing")), w)) /\
   (cookie <> header ->
    exists e, forall A (call_next : Request -> M A) w,
      csrf_protect module request call_next w = (Raise e, w))).
Proof.
  split.
  - intros Hd A call_next w. unfold csrf_protect. now rewrite Hd.
  - intros Hd Hm. cbn zeta.
    assert (truthy (cookies_get request "csrf_token") = false \/
            truthy (headers_get request "X-CSRF-Token") = false ->
            forall A (call_next : Request -> M A) w,
              csrf_protect module request call_next w
              = (Raise (HTTPException 403 (Detail "CSRF token missing")), w)) as Hmissing.
    { intros H A call_next w. unfold csrf_protect. rewrite Hd, Hm. run.
      destruct (cookies_get request "csrf_token") as [[|a c]|];
        destruct (headers_get request "X-CSRF-Token") as [[|b h]|];
        try reflexivity.
      destruct H; discriminate. }
    split; [exact Hmissing|].
    intros Hne.
    destruct (truthy (cookies_get request "csrf_token")) eqn:Ec;
      [|eexists; apply Hmissing; now left].
    destruct (truthy (headers_get request "X-CSRF-Token")) eqn:Eh;
      [|eexists; apply Hmissing; now right].
    destruct (cookies_get request "csrf_token") as [[|a c]|] eqn:Ecookie; try discriminate.
    destruct (headers_get request "X-CSRF-Token") as [[|b h]|] eqn:Eheader; try discriminate.
    destruct (existsb (String.eqb "AuthService") module) eqn:Ei.
    + destruct (is_ascii (a :: c) && is_ascii (b :: h)) eqn:Ea.
      * exists (HTTPException 403 (Detail "Invalid CSRF token")).
        intros A call_next w. unfold csrf_protect, import_from, verify_csrf_token.
        rewrite Hd, Hm, Ecookie, Eheader, Ei, Ea. run.
        destruct (text_eqb (a :: c) (b :: h)) eqn:Et; [|reflexivity].
        apply text_eqb_eq in Et. congruence.
      * eexists. intros A call_next w. unfold csrf_protect, import_from, verify_csrf_token.
        rewrite Hd, Hm, Ecookie, Eheader, Ei, Ea. run. reflexivity.
    + eexists. intros A call_next w. unfold csrf_protect, import_from.
      rewrite Hd, Hm, Ecookie, Eheader, Ei. run. reflexivity.
Qed.

(** With a module that binds [AuthService], a matching pair lets the request
    through and a differing pair is answered 403. *)
Lemma csrf_protect_bound (module : list string) (request : Request) (cookie header : text)
    (A : Type) (call_next : Request -> M A) (w : World) :
  from_docs request = false -> state_changing (method request) = true ->
  In "AuthService" module ->
  cookies_get request "csrf_token" = Some cookie ->
  headers_get request "X-CSRF-Token" = Some header ->
  truthy (Some cookie) = true -> truthy (Some header) = true ->
  is_ascii cookie = true -> is_ascii header = true ->
  csrf_protect module request call_next w
  = if text_eqb cookie header then call_next request w
    else (Raise (HTTPException 403 (Detail "Invalid CSRF token")), w).
Proof.
  intros Hd Hm Hin Hc Hh Tc Th Ac Ah.
  assert (existsb (String.eqb "AuthService") module = true) as Ei.
  { apply existsb_exists. exists "AuthService". split; [exact Hin | apply String.eqb_refl]. }
  unfold csrf_protect, import_from, verify_csrf_token.
  rewrite Hd, Hm, Hc, Hh, Ei. destruct cookie; [discriminate|]. destruct header; [discriminate|].
  rewrite Ac, Ah. run. cbn [andb]. destruct (text_eqb _ _); reflexivity.
Qed.


End CsrfFacts.

(** The C6 of the specification fails: a POST with neither cookie nor header
    reaches its handler when its referer holds [/docs]. *)
Lemma csrf_docs_referer_passes :
  cookies_get post_from_docs "csrf_token" = None /\
  headers_get post_from_docs "X-CSRF-Token" = None /\
  csrf_protect application_services_auth_service post_from_docs handled world0
  = (Ok "handled", world0).
Proof. repeat split. Qed.

Lemma csrf_protect_guards_witness :
  csrf_protect application_services_auth_service (mkRequest "POST" [] []) handled world0
  = (Raise (HTTPException 403 (Detail "CSRF token missing")), world0) /\
  csrf_protect application_services_auth_service
    (mkRequest "DELETE" [("csrf_token", text_of "abc")] []) handled world0
  = (Raise (HTTPException 403 (Detail "CSRF token missing")), world0).
Proof.
  split.
  - apply (proj1 (proj2 (csrf_protect_guards application_services_auth_service
                           (mkRequest "POST" [] [])) eq_refl eq_refl)).
    now left.
  - apply (proj1 (proj2 (csrf_protect_guards application_services_auth_service
                           (mkRequest "DELETE" [("csrf_token", text_of "abc")] []))
                    eq_refl eq_refl)).
    now right.
Defined.

(** ** The user route *)

Section RouteFacts.
Context {P : Platform}.

Lemma filter_nothing {A} (l : list A) : filter (fun _ => false) l = [].
Proof. induction l; [reflexivity | assumption]. Qed.

(** C9 against the code. For an authenticated caller the route
    [GET /users/{username}] hands the caller's [User] object, not the
    caller's name, to the lookup: whatever name is asked for, the caller's own
    included, the route raises and returns no profile. *)
Theorem get_user_info_route_returns_no_profile (request : Request) (name : string)
    (w w1 : World) (caller : User) :
  get_current_user request w = (Ok (Some caller), w1) ->
  get_user_info_route request name w = (Raise entity_lookup_failure, w) /\
  (forall info, fst (get_user_info_route request name w) <> Ok info) /\
  exists status, (400 <= status)%Z /\
                 exists c, serve (get_user_info_route request name) w = JSONResponse status c.
Proof.
  intros Hg.
  assert (get_user_info_route request name w = (Raise entity_lookup_failure, w)) as Hr.
  { pose proof (@get_by_username_world_of_current _ _ _ _ _ Hg) as (-> & rows & Hs).
    unfold get_user_info_route. unfold bind at 1. rewrite Hg.
    cbn [pyval_of str_ne].
    unfold get_user_info, get_by_username, select_username, select_where,
      entity_lookup_failure. run. rewrite Hs, filter_nothing.
    destruct bind_entity; reflexivity. }
  split; [exact Hr|]. split.
  - intros info. rewrite Hr. discriminate.
  - unfold serve. rewrite Hr. unfold entity_lookup_failure.
    destruct bind_entity; cbn; [exists 500%Z | exists 404%Z]; (split; [lia | eauto]).
Qed.

End RouteFacts.

(** Alice asks for bob's profile, then for her own: both requests fail.  The
    service itself, given her name, answers with her profile. *)
Lemma get_user_info_route_returns_no_profile_witness :
  serve (get_user_info_route (with_bearer (fst alice_tokens)) "bob") world0
  = JSONResponse 500 InternalServerError /\
  serve (get_user_info_route (with_bearer (fst alice_tokens)) "alice") world0
  = JSONResponse 500 InternalServerError.
Proof.
  assert (get_current_user (with_bearer (fst alice_tokens)) world0
          = (Ok (Some alice), world0)) as Hg by reflexivity.
  split.
  - destruct (@get_user_info_route_returns_no_profile _ _ "bob" _ _ _ Hg) as (Hr & _).
    unfold serve. now rewrite Hr.
  - destruct (@get_user_info_route_returns_no_profile _ _ "alice" _ _ _ Hg) as (Hr & _).
    unfold serve. now rewrite Hr.
Defined.

Example get_user_info_by_name :
  fst (get_user_info "alice" world0)
  = Ok (mkUserInfo "alice" "alice@example.com" (Some (mkdate 2000 1 1)) 26 true).
Proof. reflexivity. Qed.

(** * Further properties of the code *)

(** ** Age and registration *)

Section DomainFacts.
Context {P : Platform}.

Lemma append_if_nil (c : bool) (m : string) (l : list string) :
  append_if c m l = [] <-> c = false /\ l = [].
Proof.
  unfold append_if. destruct c.
  - split; [|intros [? _]; discriminate]. destruct l; discriminate.
  - tauto.
Qed.

(** X1. A user has reached [n] years exactly when today is not before the
    date of birth moved [n] years on; a user without a date of birth has age
    0 and is no adult. *)
Theorem age_reaches (today dob : date) (u : User) (n : Z) :
  (date_of_birth u = Some dob ->
   ((n <= age today u)%Z
    <-> date_ltb today (mkdate (year dob + n) (month dob) (day dob)) = false) /\
   (is_adult today u = true
    <-> date_ltb today (mkdate (year dob + 18) (month dob) (day dob)) = false)) /\
  (date_of_birth u = None -> age today u = 0%Z /\ is_adult today u = false).
Proof.
  split.
  - intros Hd.
    assert (forall k, (k <= age today u)%Z
                      <-> date_ltb today (mkdate (year dob + k) (month dob) (day dob)) = false)
      as Hk.
    { intros k. unfold age. rewrite Hd. unfold date_ltb, pair_ltb. cbn [year month day fst snd].
      destruct (Z.ltb_spec (year today) (year dob + k)),
        (Z.eqb_spec (year today) (year dob + k)),
        (Z.ltb_spec (month today) (month dob)),
        (Z.eqb_spec (month today) (month dob)),
        (Z.ltb_spec (day today) (day dob)); cbn; split; intros; try lia; try discriminate;
        try reflexivity. }
    split; [apply Hk|]. unfold is_adult. rewrite Z.leb_le. apply Hk.
  - intros Hd. unfold is_adult, age. rewrite Hd. split; reflexivity.
Qed.

(** X2. [validate_registration] returns no error exactly for an adult with a
    user name of three characters or more, an email that holds an at sign and
    a password that meets the five rules; its tests for a birth date in the
    future and for an unset password never decide. *)
Theorem validate_registration_accepts (today : date) (name mail password : string)
    (dob : date) :
  validate_registration today name mail password dob = [] <->
  (18 <= age today (mkUser name mail password (Some dob) None))%Z /\
  (3 <= String.length name)%nat /\
  In "@"%char (list_ascii_of_string mail) /\
  forall r, satisfies r password.
Proof.
  unfold validate_registration, validate, age.
  cbn [username email password_hash date_of_birth]. cbn zeta. split.
  - intros H. apply app_eq_nil in H as [H Hp]. apply app_eq_nil in H as [Ha Hv].
    apply append_if_nil in Ha as [Ha _].
    apply append_if_nil in Hv as [_ Hv]. apply append_if_nil in Hv as [_ Hv].
    apply append_if_nil in Hv as [Hm Hv]. apply append_if_nil in Hv as [Hn _].
    apply Z.ltb_ge in Ha. apply orb_false_iff in Hn as [_ Hn]. apply Nat.ltb_ge in Hn.
    apply orb_false_iff in Hm as [_ Hm]. apply negb_false_iff in Hm.
    apply char_in_In in Hm.
    repeat split; try assumption.
    intros r. apply satisfies_iff.
    destruct (violates r password) eqn:E; [|reflexivity].
    apply In_validate_password in E. rewrite Hp in E. contradiction.
  - intros (Ha & Hn & Hm & Hp).
    assert (validate_password password = []) as ->
      by (apply validate_password_correct; exact Hp).
    pose proof (Hp Length) as Hl. cbn in Hl.
    replace (_ <? 18)%Z with false by (symmetry; now apply Z.ltb_ge).
    replace (String.length name =? 0)%nat with false
      by (symmetry; apply Nat.eqb_neq; lia).
    replace (String.length name <? 3)%nat with false
      by (symmetry; apply Nat.ltb_ge; lia).
    replace (String.length mail =? 0)%nat with false.
    2: { symmetry. apply Nat.eqb_neq. destruct mail; [contradiction | cbn; lia]. }
    replace (char_in mail "@"%char) with true by (symmetry; now apply char_in_In).
    replace (String.length password =? 0)%nat with false
      by (symmetry; apply Nat.eqb_neq; lia).
    replace (date_gtb dob today) with false; [reflexivity|].
    symmetry. unfold date_gtb, date_ltb, pair_ltb. cbn [fst snd].
    destruct (pair_ltb (month today, day today) (month dob, day dob));
      destruct (Z.ltb_spec (year today) (year dob)),
        (Z.eqb_spec (year today) (year dob)); cbn; try reflexivity; lia.
Qed.

(** X3. The schemas' password validator and the entity's agree: a password the
    field's length bounds and the validator let through is one the entity's
    validator finds no fault with, and conversely; and the message the
    schema raises is one of those the entity's validator returns. *)
Theorem schema_password_agrees (v : string) :
  ((password_field_length v = true /\ schema_validate_password v = Ok v)
   <-> validate_password v = []) /\
  (forall e, schema_validate_password v = Raise e ->
             exists m, e = ValueError m /\ In m (validate_password v)).
Proof.
  split.
  - unfold password_field_length. split.
    + intros [Hl Hs]. apply validate_password_correct. intros r. apply satisfies_iff.
      apply andb_true_iff in Hl as [H8 H20]. apply Nat.leb_le in H8, H20.
      unfold schema_validate_password in Hs.
      destruct (negb (any_char str_islower v)) eqn:E1; [discriminate|].
      destruct (negb (any_char str_isupper v)) eqn:E2; [discriminate|].
      destruct (negb (any_char str_isdigit v)) eqn:E3; [discriminate|].
      destruct (negb (any_char (char_in "@$!%*?&#") v)) eqn:E4; [discriminate|].
      destruct r; unfold violates; try assumption.
      apply orb_false_iff. split; apply Nat.ltb_ge; lia.
    + intros Hv.
      assert (forall r, violates r v = false) as Hr.
      { intros r. destruct (violates r v) eqn:E; [|reflexivity].
        apply In_validate_password in E. rewrite Hv in E. contradiction. }
      pose proof (Hr Length) as HL. pose proof (Hr Lower) as H1. pose proof (Hr Upper) as H2.
      pose proof (Hr Digit) as H3. pose proof (Hr Special) as H4.
      unfold violates in HL, H1, H2, H3, H4.
      apply orb_false_iff in HL as [H8 H20]. apply Nat.ltb_ge in H8, H20. split.
      * apply andb_true_iff. split; apply Nat.leb_le; lia.
      * unfold schema_validate_password. now rewrite H1, H2, H3, H4.
  - intros e. unfold schema_validate_password.
    destruct (negb (any_char str_islower v)) eqn:E1.
    { intros [= <-]. exists msg_lower. split; [reflexivity|].
      now apply (In_validate_password Lower). }
    destruct (negb (any_char str_isupper v)) eqn:E2.
    { intros [= <-]. exists msg_upper. split; [reflexivity|].
      now apply (In_validate_password Upper). }
    destruct (negb (any_char str_isdigit v)) eqn:E3.
    { intros [= <-]. exists msg_digit. split; [reflexivity|].
      now apply (In_validate_password Digit). }
    destruct (negb (any_char (char_in "@$!%*?&#") v)) eqn:E4; [|discriminate].
    intros [= <-]. exists msg_special. split; [reflexivity|].
    now apply (In_validate_password Special).
Qed.

(** X4. A date of birth the schemas let through gives an age between 0 and the
    years since 1900, and passes the date test of [User.validate]. *)
Theorem schema_date_of_birth_bounds (today v v' : date) (u : User) :
  schema_validate_date_of_birth today v = Ok v' ->
  date_of_birth u = Some v ->
  v' = v /\ (0 <= age today u <= year today - 1900)%Z /\ date_gtb v today = false.
Proof.
  unfold schema_validate_date_of_birth. intros H Hd.
  destruct (date_gtb v today) eqn:Eg; [discriminate|].
  destruct (date_ltb v (mkdate 1900 1 1)) eqn:El; [discriminate|].
  injection H as <-. split; [reflexivity|]. split; [|reflexivity].
  unfold age. rewrite Hd. revert Eg El. unfold date_gtb, date_ltb, pair_ltb.
  cbn [year month day fst snd].
  destruct (Z.ltb_spec (year today) (year v)), (Z.eqb_spec (year today) (year v)),
    (Z.ltb_spec (month today) (month v)), (Z.eqb_spec (month today) (month v)),
    (Z.ltb_spec (day today) (day v)),
    (Z.ltb_spec (year v) 1900), (Z.eqb_spec (year v) 1900); cbn; intros; try discriminate; lia.
Qed.

End DomainFacts.

(** Eighteen years to the day makes an adult; one day less does not. *)
Lemma age_reaches_witness :
  is_adult (mkdate 2026 11 4) (mkUser "u" "u@e" "h" (Some (mkdate 2008 11 4)) None) = true /\
  is_adult (mkdate 2026 11 4) (mkUser "u" "u@e" "h" (Some (mkdate 2008 11 5)) None) <> true.
Proof.
  split.
  - apply (proj1 (age_reaches (mkdate 2026 11 4) (mkdate 2008 11 4)
                    (mkUser "u" "u@e" "h" (Some (mkdate 2008 11 4)) None) 18) eq_refl).
    reflexivity.
  - intros H.
    apply (proj1 (age_reaches (mkdate 2026 11 4) (mkdate 2008 11 5)
                    (mkUser "u" "u@e" "h" (Some (mkdate 2008 11 5)) None) 18) eq_refl) in H.
    discriminate H.
Defined.

Lemma schema_date_of_birth_bounds_witness :
  (0 <= age (mkdate 2026 11 4) alice <= 126)%Z.
Proof.
  apply (@schema_date_of_birth_bounds (mkdate 2026 11 4) (mkdate 2000 1 1)
           (mkdate 2000 1 1) alice eq_refl eq_refl).
Defined.

(** ** The domain service of authentication *)



Section AuthDomainFacts.
Context {P : Platform}.


(** X6. A token that [is_token_expired] calls expired is one
    [should_refresh_token] says to refresh, for every threshold that is not
    negative and for the default one. *)
Theorem expired_should_refresh (expiration_time : Z) (threshold_minutes : option Z)
    (w : World) :
  (forall m, threshold_minutes = Some m -> (0 <= m)%Z) ->
  is_token_expired expiration_time w = (Ok true, w) ->
  should_refresh_token expiration_time threshold_minutes w = (Ok true, w).
Proof.
  unfold is_token_expired, should_refresh_token. run. intros Hm [= He].
  apply Z.ltb_lt in He. f_equal. f_equal. apply Z.ltb_lt.
  destruct threshold_minutes as [m|]; [specialize (Hm m eq_refl)|]; lia.
Qed.

(** X7. [calculate_token_expiry] raises [ValueError] for a type that is
    neither access nor refresh; it takes an absent lifetime and a lifetime of
    0 alike for the default (60 minutes, 7 days); and for a lifetime that is
    not negative the expiry lies after the present instant, so the token is
    not expired when made. *)
Theorem calculate_token_expiry_cases (token_type : string) (minutes days : option Z)
    (w : World) :
  (token_type <> "access" -> token_type <> "refresh" ->
   calculate_token_expiry token_type minutes days w
   = (Raise (ValueError ("Неизвестный тип токена: " ++ token_type)), w)) /\
  calculate_token_expiry "access" (Some 0%Z) days w
  = calculate_token_expiry "access" None days w /\
  calculate_token_expiry "refresh" minutes (Some 0%Z) w
  = calculate_token_expiry "refresh" minutes None w /\
  calculate_token_expiry "access" None days w = (Ok (utcnow w + 3600)%Z, w) /\
  calculate_token_expiry "refresh" minutes None w = (Ok (utcnow w + 604800)%Z, w) /\
  (forall m e w',
      (0 <= m)%Z ->
      calculate_token_expiry "access" (Some m) days w = (Ok e, w') ->
      (utcnow w < e)%Z /\ is_token_expired e w' = (Ok false, w')).
Proof.
  split; [|repeat split; try reflexivity].
  - intros Ha Hr. unfold calculate_token_expiry. run.
    apply String.eqb_neq in Ha, Hr. now rewrite Ha, Hr.
  - revert H0. unfold calculate_token_expiry. run. cbn. intros [= <- <-].
    destruct m; cbn; lia.
  - revert H0. unfold calculate_token_expiry, is_token_expired. run. cbn.
    intros [= <- <-]. f_equal. f_equal. apply Z.ltb_ge. destruct m; cbn; lia.
Qed.

End AuthDomainFacts.

Lemma expired_should_refresh_witness :
  should_refresh_token 999999 None world0 = (Ok true, world0) /\
  should_refresh_token 999999 (Some 0%Z) world0 = (Ok true, world0).
Proof.
  split.
  - apply (@expired_should_refresh 999999 None world0); [discriminate | reflexivity].
  - apply (@expired_should_refresh 999999 (Some 0%Z) world0); [|reflexivity].
    intros m [= <-]. lia.
Defined.

(** ** Sessions: login, refresh, deletion *)

Section SessionFacts.
Context {P : Platform}.

(** The directory answers from the users table alone. *)
Lemma get_by_username_store (key : pyval) (w w' : World) (r : result (option User)) :
  store w' = store w -> get_by_username key w = (r, w) -> get_by_username key w' = (r, w').
Proof.
  intros Hs. unfold get_by_username, select_username, select_where. run.
  destruct key; cbn beta; rewrite Hs; destruct (store w); try (intros [= <-]; reflexivity).
  - destruct (scalar_one_or_none _); intros [= <-]; reflexivity.
  - destruct (scalar_one_or_none _); intros [= <-]; reflexivity.
  - destruct bind_entity; cbn; [intros [= <-]; reflexivity|].
    destruct (scalar_one_or_none _); intros [= <-]; reflexivity.
Qed.

Lemma get_by_username_result (key : pyval) (w : World) :
  get_by_username key w = (fst (get_by_username key w), w).
Proof.
  destruct (get_by_username key w) as [r w'] eqn:E.
  now rewrite (get_by_username_world _ _ E).
Qed.

Lemma no_subject_name (name : string) : name <> "" -> no_subject (Some name) = false.
Proof. destruct name; [contradiction | reflexivity]. Qed.

Lemma extract_bearer (j : jws) (w : World) :
  extract_token (with_bearer [Jws j]) w = (Ok (Some [Jws j]), w).
Proof. reflexivity. Qed.

Lemma extract_cookie (j : jws) (w : World) :
  extract_token (with_cookie "access_token" [Jws j]) w = (Ok (Some [Jws j]), w).
Proof. reflexivity. Qed.

(** What a successful login rests on. *)
Lemma login_ok (name password : string) (w w' : World) (ts : TokenSchema) :
  login name password w = (Ok ts, w') ->
  exists user,
    get_by_username name w = (Ok (Some user), w) /\
    checkpw password (password_hash user) = Ok true /\
    username user = name /\
    create_tokens [("sub", name)] w = (Ok (access_token ts, refresh_token_of ts), w').
Proof.
  unfold login, authenticate_user, try_except, any_exception, verify_password. run.
  rewrite (get_by_username_result name w).
  destruct (fst (get_by_username name w)) as [[user|]|e] eqn:Eg; try discriminate.
  destruct (checkpw password (password_hash user)) as [[|]|e] eqn:Ec; try discriminate.
  cbn [negb].
  assert (username user = name) as Hn.
  { pose proof (get_by_username_result name w) as Hr. rewrite Eg in Hr.
    apply get_by_username_some in Hr as (rows & row & _ & _ & Hrow & ->). exact Hrow. }
  rewrite Hn.
  destruct (create_tokens [("sub", name)] w) as [[[a r]|e] w0] eqn:Em; [|discriminate].
  intros [= <- <-]. exists user. auto.
Qed.

(** X8. Login and session authentication, composed: the access token a login
    returns, sent as a cookie or as a bearer header, makes
    [get_current_user] return the user the directory holds under that name,
    provided the name is not empty and the access lifetime is positive. *)
Theorem login_then_authenticated (name password : string) (w w' : World) (ts : TokenSchema) :
  login name password w = (Ok ts, w') ->
  name <> "" ->
  (0 < ACCESS_TOKEN_EXPIRE_MINUTES (settings w))%Z ->
  exists user,
    get_by_username name w = (Ok (Some user), w) /\
    get_current_user (with_bearer (access_token ts)) w' = (Ok (Some user), w') /\
    get_current_user (with_cookie "access_token" (access_token ts)) w' = (Ok (Some user), w').
Proof.
  intros Hl Hname Httl.
  apply login_ok in Hl as (user & Hg & _ & _ & Hm). exists user. split; [exact Hg|].
  apply create_tokens_ok in Hm as (s & [= <-] & Ha & _ & ->). rewrite Ha.
  assert (get_by_username name (set_entropy w (entropy w + 1 + 1))
          = (Ok (Some user), set_entropy w (entropy w + 1 + 1))) as Hg'
    by (now apply (get_by_username_store name (w:=w))).
  unfold jwt_encode.
  remember (60 * ACCESS_TOKEN_EXPIRE_MINUTES (settings w))%Z as ttl eqn:Ettl.
  assert (0 < ttl)%Z as Hpos by lia. clear Ettl Ha.
  split.
  - rewrite (get_current_user_token _ (extract_bearer _ _) eq_refl).
    unfold jwt_decode. run. cbn. rewrite !String.eqb_refl. cbn.
    replace (_ <=? utcnow w)%Z with false by (symmetry; apply Z.leb_gt; lia).
    destruct name; [now elim Hname|]. exact Hg'.
  - rewrite (get_current_user_token _ (extract_cookie _ _) eq_refl).
    unfold jwt_decode. run. cbn. rewrite !String.eqb_refl. cbn.
    replace (_ <=? utcnow w)%Z with false by (symmetry; apply Z.leb_gt; lia).
    destruct name; [now elim Hname|]. exact Hg'.
Qed.

(** [refresh_token] on a refresh token with a good signature, a subject and
    an expiry still ahead. *)
Lemma refresh_token_run (j : jws) (w : World) (name : string) (e : Z) :
  jws_key j = SECRET_KEY (settings w) -> jws_alg j = ALGORITHM (settings w) ->
  typ (jws_claims j) = Some "refresh" -> sub (jws_claims j) = Some name -> name <> "" ->
  exp (jws_claims j) = Some e -> (utcnow w < e)%Z ->
  refresh_token [Jws j] w =
  if (e + utc_offset w <? utcnow w)%Z
  then (Raise (refresh_failed "Истекший refresh токен"), w)
  else
    match fst (get_by_username name w) with
    | Ok (Some _) =>
        match create_tokens [("sub", name)] w with
        | (Ok (a, r), w') => (Ok (mkTokenSchema a r "bearer"), w')
        | (Raise x, w') => (Raise (refresh_failed (exn_str x)), w')
        end
    | Ok None => (Raise (refresh_failed "Пользователь не найден"), w)
    | Raise x => (Raise (refresh_failed (exn_str x)), w)
    end.
Proof.
  intros Hk Ha Ht Hs Hn He Hnow.
  destruct j as [alg [s x t i] key]. cbn [jws_key jws_alg jws_claims typ sub exp] in *. subst.
  unfold refresh_token, try_except, any_exception, jwt_decode, fromtimestamp,
    is_token_expired, refresh_failed. run.
  cbn [jws_key jws_alg jws_claims typ sub exp].
  rewrite !String.eqb_refl. cbn [andb orb existsb]. rewrite !String.eqb_refl.
  cbn [andb orb existsb].
  replace (e <=? utcnow w)%Z with false by (symmetry; apply Z.leb_gt; lia).
  cbn -[get_by_username create_tokens Z.add Z.ltb append no_subject].
  rewrite (no_subject_name Hn).
  cbn -[get_by_username create_tokens Z.add Z.ltb append].
  destruct (e + utc_offset w <? utcnow w)%Z; [reflexivity|].
  rewrite (get_by_username_result name w).
  cbn -[get_by_username create_tokens Z.add Z.ltb append].
  destruct (fst (get_by_username name w)) as [[user|]|x]; reflexivity.
Qed.

(** What an accepted refresh token is. *)
Lemma refresh_token_ok_inv (token : text) (w w' : World) (ts : TokenSchema) :
  refresh_token token w = (Ok ts, w') ->
  exists j name e,
    token = [Jws j] /\ jws_key j = SECRET_KEY (settings w) /\
    jws_alg j = ALGORITHM (settings w) /\ typ (jws_claims j) = Some "refresh" /\
    sub (jws_claims j) = Some name /\ name <> "" /\ exp (jws_claims j) = Some e /\
    (utcnow w < e)%Z.
Proof.
  unfold refresh_token, try_except, any_exception.
  match goal with
  | |- (match ?x with _ => _ end) = _ -> _ => destruct x as [[ts0|e0] w0] eqn:E
  end; [|discriminate].
  intros _. revert E. run.
  destruct (jwt_decode token _ _ w) as [[c|x] w1] eqn:Ed; [|discriminate].
  apply jwt_decode_ok in Ed as (j & -> & -> & Hk & [Ha|[]] & Hexp).
  destruct (type_differs _ "refresh") eqn:Et; [discriminate|].
  apply type_differs_false in Et.
  destruct (no_subject _) eqn:Es; [discriminate|]. cbn [orb].
  destruct (sub (jws_claims j)) as [name|] eqn:Esub; [|discriminate].
  destruct (exp (jws_claims j)) as [e|] eqn:Ee; [|discriminate].
  intros _. exists j, name, e. repeat split; auto.
  intros ->. discriminate.
Qed.

(** X9. [refresh_token] and the local time zone. A refresh token with a good
    signature, for a user the directory holds, is accepted while the clock is
    before its expiry and not past the expiry shifted by the zone's offset;
    where local time is behind UTC it is turned away as expired for the last
    stretch of its life, as long as the offset; past its expiry the codec
    turns it away. *)
Theorem refresh_token_window (j : jws) (w : World) (name : string) (e : Z) (user : User) :
  jws_key j = SECRET_KEY (settings w) -> jws_alg j = ALGORITHM (settings w) ->
  typ (jws_claims j) = Some "refresh" -> sub (jws_claims j) = Some name -> name <> "" ->
  exp (jws_claims j) = Some e ->
  get_by_username name w = (Ok (Some user), w) ->
  ((utcnow w < e)%Z -> (utcnow w <= e + utc_offset w)%Z ->
   exists ts w', refresh_token [Jws j] w = (Ok ts, w')) /\
  ((utcnow w < e)%Z -> (e + utc_offset w < utcnow w)%Z ->
   refresh_token [Jws j] w = (Raise (refresh_failed "Истекший refresh токен"), w)) /\
  ((e < utcnow w)%Z ->
   exists reason, refresh_token [Jws j] w = (Raise (refresh_failed reason), w)).
Proof.
  intros Hk Ha Ht Hs Hn He Hg. repeat split.
  - intros Hnow Hoff. rewrite (refresh_token_run j w Hk Ha Ht Hs Hn He Hnow).
    replace (e + utc_offset w <? utcnow w)%Z with false by (symmetry; apply Z.ltb_ge; lia).
    rewrite Hg. cbn [fst].
    destruct (create_tokens_total name w) as (a & r & w' & ->). eauto.
  - intros Hnow Hoff. rewrite (refresh_token_run j w Hk Ha Ht Hs Hn He Hnow).
    now replace (e + utc_offset w <? utcnow w)%Z with true by (symmetry; apply Z.ltb_lt; lia).
  - intros Hnow. destruct j as [alg [s x t i] key].
    cbn [jws_key jws_alg jws_claims typ sub exp] in *. subst.
    unfold refresh_token, try_except, any_exception, jwt_decode, refresh_failed. run.
    cbn [jws_key jws_alg jws_claims typ sub exp].
    rewrite !String.eqb_refl. cbn [andb orb existsb]. rewrite !String.eqb_refl.
    cbn [andb orb existsb].
    replace (e <=? utcnow w)%Z with true by (symmetry; apply Z.leb_le; lia).
    eexists. reflexivity.
Qed.

(** X10. Rotation. The pair [refresh_token] returns names the subject of the
    token presented, one token of type access and one of type refresh, both
    under the service's key; and the token presented is not used up: the
    world the call leaves accepts it again. *)
Theorem refresh_token_rotation (token : text) (w w' : World) (ts : TokenSchema) :
  refresh_token token w = (Ok ts, w') ->
  (exists j name ja jr,
      token = [Jws j] /\ sub (jws_claims j) = Some name /\
      access_token ts = [Jws ja] /\ refresh_token_of ts = [Jws jr] /\
      sub (jws_claims ja) = Some name /\ typ (jws_claims ja) = Some "access" /\
      sub (jws_claims jr) = Some name /\ typ (jws_claims jr) = Some "refresh" /\
      jws_key ja = SECRET_KEY (settings w) /\ jws_key jr = SECRET_KEY (settings w)) /\
  (exists ts' w'', refresh_token token w' = (Ok ts', w'')).
Proof.
  intros Hr.
  destruct (refresh_token_ok_inv _ _ Hr) as (j & name & e & -> & Hk & Ha & Ht & Hs & Hn & He & Hnow).
  rewrite (refresh_token_run j w Hk Ha Ht Hs Hn He Hnow) in Hr.
  destruct (e + utc_offset w <? utcnow w)%Z eqn:Eo; [discriminate|].
  destruct (fst (get_by_username name w)) as [[user|]|x] eqn:Eg; try discriminate.
  destruct (create_tokens [("sub", name)] w) as [[[a r]|x] w0] eqn:Em; [|discriminate].
  injection Hr as <- <-.
  apply create_tokens_ok in Em as (s & [= <-] & -> & -> & ->).
  split.
  - exists j, name. eexists. eexists. unfold jwt_encode. cbn. repeat split; auto.
  - pose proof (get_by_username_result name w) as Hg. rewrite Eg in Hg.
    apply (@get_by_username_store name w (set_entropy w (entropy w + 1 + 1)) _ eq_refl)
      in Hg.
    rewrite (@refresh_token_run j (set_entropy w (entropy w + 1 + 1)) name e
               Hk Ha Ht Hs Hn He Hnow).
    cbn [utc_offset utcnow set_entropy]. rewrite Eo, Hg. cbn [fst].
    destruct (create_tokens_total name (set_entropy w (entropy w + 1 + 1)))
      as (a & r & w'' & ->). eauto.
Qed.

(** A failure of [refresh_token] leaves the world as it was. *)
Lemma refresh_token_raise_world (token : text) (w w' : World) (e : exn) :
  refresh_token token w = (Raise e, w') -> w' = w.
Proof.
  unfold refresh_token, try_except, any_exception.
  match goal with
  | |- (match ?x with _ => _ end) = _ -> _ => destruct x as [[ts0|e0] w0] eqn:E
  end; [discriminate|].
  unfold throw. intros [= _ <-]. revert E. run.
  destruct (jwt_decode token _ _ w) as [[c|x] w1] eqn:Ed;
    pose proof (jwt_decode_world _ _ _ _ Ed) as ->; [|now intros [= _ <-]].
  destruct (_ || _); [now intros [= _ <-]|].
  unfold fromtimestamp, is_token_expired. run.
  destruct (exp c); [|now intros [= _ <-]].
  destruct (_ <? _)%Z; [now intros [= _ <-]|].
  destruct (sub c) as [name|]; [|now intros [= _ <-]].
  rewrite (get_by_username_result name w).
  destruct (fst (get_by_username name w)) as [[user|]|x]; now intros [= _ <-].
Qed.

(** The lookup of a name, read off the rows of the table. *)
Lemma get_by_username_rows (name : string) (w : World) (rows : list User) :
  store w = Reachable rows ->
  get_by_username name w =
  (match scalar_one_or_none (filter (fun r => String.eqb (username r) name) rows) with
   | Ok r => Ok (option_map to_entity r)
   | Raise e => Raise e
   end, w).
Proof.
  intros Hs. unfold get_by_username, select_username, select_where. run. rewrite Hs.
  destruct (scalar_one_or_none _); reflexivity.
Qed.

Lemma filter_out_then_in (name : string) (rows : list User) :
  filter (fun r => String.eqb (username r) name)
    (filter (fun r => negb (String.eqb (username r) name)) rows) = [].
Proof.
  induction rows as [|r rows IH]; [reflexivity|]. simpl.
  destruct (String.eqb (username r) name) eqn:E; simpl; [exact IH|]. now rewrite E.
Qed.

Lemma filter_out_other (name other : string) (rows : list User) :
  other <> name ->
  filter (fun r => String.eqb (username r) other)
    (filter (fun r => negb (String.eqb (username r) name)) rows)
  = filter (fun r => String.eqb (username r) other) rows.
Proof.
  intros Hne. induction rows as [|r rows IH]; [reflexivity|]. simpl.
  destruct (String.eqb (username r) name) eqn:E; simpl.
  - apply String.eqb_eq in E.
    replace (String.eqb (username r) other) with false; [exact IH|].
    symmetry. apply String.eqb_neq. congruence.
  - now rewrite IH.
Qed.

(** What a successful [delete] does to the world. *)
Lemma delete_ok (name : string) (w w' : World) :
  delete name w = (Ok true, w') ->
  exists rows,
    store w = Reachable rows /\
    store w' = Reachable (filter (fun r => negb (String.eqb (username r) name)) rows) /\
    settings w' = settings w /\ utcnow w' = utcnow w /\ utc_offset w' = utc_offset w.
Proof.
  unfold delete. run. unfold select_where. run. unfold log_call, set_store. cbn [store].
  destruct (store w) as [rows|] eqn:Es; [|discriminate].
  destruct (scalar_one_or_none _) as [[r|]|x]; cbn [store]; rewrite ?Es; try discriminate.
  intros [= <-]. exists rows. cbn. auto.
Qed.

(** X11. Deletion revokes. Once [delete] has removed a user, the directory no
    longer finds the name, every other name is found as before, and a token
    that names the deleted user, however well signed and far from expiry, is
    turned away by the refresh operation and makes session authentication
    answer anonymous. *)
Theorem delete_revokes_sessions (name : string) (w w' : World) :
  delete name w = (Ok true, w') ->
  get_by_username name w' = (Ok None, w') /\
  (forall other : string, other <> name ->
     fst (get_by_username other w') = fst (get_by_username other w)) /\
  (forall j, sub (jws_claims j) = Some name ->
     (exists m, refresh_token [Jws j] w' = (Raise (ValueError m), w')) /\
     (forall request, extract_token request w' = (Ok (Some [Jws j]), w') ->
                      get_current_user request w' = (Ok None, w'))).
Proof.
  intros Hd. apply delete_ok in Hd as (rows & Hs & Hs' & Hcfg & Hnow & Hoff).
  assert (get_by_username name w' = (Ok None, w')) as Hgone.
  { rewrite (get_by_username_rows name w' Hs'), filter_out_then_in. reflexivity. }
  split; [exact Hgone|]. split.
  - intros other Hne.
    rewrite (get_by_username_rows other w' Hs'), (get_by_username_rows other w Hs).
    cbn [fst]. now rewrite filter_out_other.
  - intros j Hsub. split.
    + destruct (refresh_token [Jws j] w') as [[ts|e] w''] eqn:Er.
      * exfalso.
        destruct (refresh_token_ok_inv _ _ Er)
          as (j' & name' & e & [= <-] & Hk & Ha & Ht & Hs2 & Hn & He & Hlt).
        rewrite (refresh_token_run j w' Hk Ha Ht Hs2 Hn He Hlt) in Er.
        rewrite Hsub in Hs2. injection Hs2 as <-.
        rewrite Hgone in Er. cbn [fst] in Er.
        destruct (_ <? _)%Z; discriminate.
      * pose proof (refresh_token_raise_world _ _ Er) as ->.
        destruct (refresh_token_raises _ _ Er) as (m & ->). eauto.
    + intros request He. rewrite (get_current_user_token _ He eq_refl).
      destruct (jwt_decode _ _ _ w') as [[c|x] w0] eqn:Ed; [|reflexivity].
      apply jwt_decode_ok in Ed as (j' & [= <-] & -> & _).
      destruct (_ || _); [reflexivity|]. rewrite Hsub. exact Hgone.
Qed.

(** X12. The cookie comes first. When the [access_token] cookie is not empty,
    [get_current_user] does not look at the headers: a cookie that does not
    decode makes the request anonymous even beside a good bearer header. *)
Theorem cookie_shadows_header (request : Request) (w : World) :
  truthy (cookies_get request "access_token") = true ->
  get_current_user request w
  = get_current_user (mkRequest (method request) (cookies request) []) w.
Proof.
  intros Hc. unfold get_current_user, extract_token, bind.
  replace (cookies_get (mkRequest (method request) (cookies request) []) "access_token")
    with (cookies_get request "access_token") by reflexivity.
  rewrite Hc. reflexivity.
Qed.

(** X13. No failure of the refresh route is anything but a 401 that carries the
    cause in its detail, and none changes the world; when the directory
    lookup raises for a good refresh token, the answer is that 401 with the
    lookup's own message in it. *)
Theorem refresh_route_failures (token : text) (w : World) :
  (forall e w', refresh_route token w = (Raise e, w') ->
                w' = w /\
                exists reason,
                  e = HTTPException 401 (Detail ("Не удалось обновить токен: " ++ reason))) /\
  (forall j name e x,
      token = [Jws j] ->
      jws_key j = SECRET_KEY (settings w) -> jws_alg j = ALGORITHM (settings w) ->
      typ (jws_claims j) = Some "refresh" -> sub (jws_claims j) = Some name -> name <> "" ->
      exp (jws_claims j) = Some e -> (utcnow w < e)%Z -> (utcnow w <= e + utc_offset w)%Z ->
      get_by_username name w = (Raise x, w) ->
      serve (refresh_route token) w
      = JSONResponse 401 (ErrorOf (Detail ("Не удалось обновить токен: " ++ exn_str x)))).
Proof.
  split.
  - intros e w'. unfold refresh_route, try_except.
    destruct (refresh_token token w) as [[ts|x] w0] eqn:Er; [discriminate|].
    pose proof (refresh_token_raise_world _ _ Er) as ->.
    destruct (refresh_token_raises _ _ Er) as (m & ->).
    revert Er. unfold refresh_token, try_except, any_exception.
    match goal with
    | |- (match ?x with _ => _ end) = _ -> _ => destruct x as [[ts0|e0] w1]
    end; [discriminate|].
    unfold throw. intros [= <- _]. cbn. intros [= <- <-]. eauto.
  - intros j name e x -> Hk Ha Ht Hs Hn He Hnow Hoff Hg.
    unfold serve, refresh_route, try_except.
    rewrite (refresh_token_run j w Hk Ha Ht Hs Hn He Hnow).
    replace (e + utc_offset w <? utcnow w)%Z with false by (symmetry; apply Z.ltb_ge; lia).
    rewrite Hg. reflexivity.
Qed.

(** X14. [GET /users/me] never answers with a profile: for a caller the session
    authenticates it looks the [User] object up as if it were a name, and
    for an anonymous caller it looks up [None]. *)
Theorem get_current_user_info_never_answers (request : Request) (w : World) :
  (forall info w', get_current_user_info request w <> (Ok info, w')) /\
  (forall caller w', get_current_user request w = (Ok (Some caller), w') ->
                     get_current_user_info request w = (Raise entity_lookup_failure, w)) /\
  (forall rows, get_current_user request w = (Ok None, w) -> store w = Reachable rows ->
                get_current_user_info request w = (Raise not_found, w)).
Proof.
  assert (forall caller w', get_current_user request w = (Ok (Some caller), w') ->
          get_current_user_info request w = (Raise entity_lookup_failure, w)) as Hauth.
  { intros caller w' Hg.
    pose proof (@get_by_username_world_of_current _ _ _ _ _ Hg) as (-> & rows & Hs).
    unfold get_current_user_info. unfold bind at 1. rewrite Hg. cbn [pyval_of].
    unfold get_user_by_username, get_by_username, select_username, select_where,
      entity_lookup_failure. run. rewrite Hs, filter_nothing.
    destruct bind_entity; reflexivity. }
  assert (forall w', get_current_user request w = (Ok None, w') ->
          forall info w'', get_current_user_info request w <> (Ok info, w'')) as Hanon.
  { intros w' Hg info w''. unfold get_current_user_info. unfold bind at 1. rewrite Hg.
    cbn [pyval_of].
    unfold get_user_by_username, get_by_username, select_username, select_where. run.
    destruct (store w'); [rewrite filter_nothing|]; discriminate. }
  split; [|split].
  - intros info w'.
    destruct (get_current_user request w) as [[[caller|]|e] w0] eqn:Eg.
    + rewrite (Hauth _ _ eq_refl). discriminate.
    + now apply (Hanon w0 eq_refl).
    + unfold get_current_user_info. unfold bind at 1. rewrite Eg. discriminate.
  - exact Hauth.
  - intros rows Hg Hs. unfold get_current_user_info. unfold bind at 1. rewrite Hg.
    cbn [pyval_of].
    unfold get_user_by_username, get_by_username, select_username, select_where. run.
    rewrite Hs, filter_nothing. reflexivity.
Qed.

End SessionFacts.

(** ** The repository and registration *)

Section RepositoryFacts.
Context {P : Platform}.

Lemma filter_nil {A} (f : A -> bool) (l : list A) :
  filter f l = [] <-> forall x, In x l -> f x = false.
Proof.
  induction l as [|a l IH]; simpl.
  - split; [intros _ x [] | reflexivity].
  - destruct (f a) eqn:E.
    + split; [discriminate|]. intros H. specialize (H a (or_introl eq_refl)). congruence.
    + rewrite IH. split.
      * intros H x [<- | Hin]; auto.
      * intros H x Hin. apply H. now right.
Qed.

Lemma scalar_none (rows : list User) : scalar_one_or_none rows = Ok None <-> rows = [].
Proof. destruct rows as [|r [|r' rows]]; simpl; split; intros H; try discriminate; reflexivity. Qed.

Lemma existsb_filter (f : User -> bool) (rows : list User) :
  existsb f rows = false <-> filter f rows = [].
Proof.
  rewrite filter_nil. induction rows as [|r rows IH]; simpl.
  - split; [intros _ x [] | reflexivity].
  - rewrite orb_false_iff, IH. split.
    + intros [Hr H] x [<- | Hin]; auto.
    + intros H. split; [apply H; now left|]. intros x Hin. apply H. now right.
Qed.


(** What a registration that returns has done, and what one that fails with
    an [HTTPException] has not. *)
Lemma register_user_ok (name mail password : string) (dob : date) (w w' : World)
    (info : UserInfoSchema) :
  register_user name mail password dob w = (Ok info, w') ->
  exists rows,
    store w = Reachable rows /\
    (forall row, In row rows -> username row <> name /\ email row <> mail) /\
    validate_registration (today w) name mail password dob = [] /\
    store w' = Reachable (rows ++ [mkUser name mail (hashpw password (entropy w))
                                    (Some dob) (Some 0%Z)])%list /\
    settings w' = settings w /\ utcnow w' = utcnow w /\
    info = mkUserInfoSchema name mail (Some dob).
Proof.
  unfold register_user. unfold bind at 1.
  rewrite (get_by_username_result name w).
  destruct (store w) as [rows|] eqn:Es.
  2: { unfold get_by_username, select_username, select_where. run. rewrite Es. discriminate. }
  rewrite (get_by_username_rows name w Es). cbn [fst].
  destruct (scalar_one_or_none (filter _ rows)) as [[r|]|x] eqn:En; try discriminate.
  apply scalar_none in En. cbn [option_map].
  unfold bind at 1. unfold get_by_email, select_where. run. rewrite Es.
  destruct (scalar_one_or_none (filter _ rows)) as [[r|]|x] eqn:Em; try discriminate.
  apply scalar_none in Em. cbn [option_map].
  destruct (nonempty _) eqn:Ev; [discriminate|].
  unfold hash_password, gensalt, uuid4, create. run. cbn [store set_entropy]. rewrite Es.
  replace (existsb _ rows) with false.
  2: { symmetry. apply existsb_filter. exact En. }
  cbn. intros [= <- <-]. exists rows. split; [reflexivity|].
  split.
  { intros row Hin. split.
    - intros Heq. pose proof (proj1 (filter_nil _ _) En row Hin) as Hf. cbn in Hf.
      apply String.eqb_neq in Hf. contradiction.
    - intros Heq. pose proof (proj1 (filter_nil _ _) Em row Hin) as Hf. cbn in Hf.
      apply String.eqb_neq in Hf. contradiction. }
  split.
  { destruct (validate_registration _ _ _ _ _); [reflexivity | discriminate]. }
  auto.
Qed.

Lemma NoDup_snoc {A} (l : list A) (a : A) : NoDup l -> ~ In a l -> NoDup (l ++ [a]).
Proof.
  induction l as [|x l IH]; intros Hnd Hin; simpl.
  - constructor; [intros [] | constructor].
  - apply NoDup_cons_iff in Hnd as [Hx Hnd]. constructor.
    + rewrite in_app_iff. intros [H | [H | []]]; [contradiction|].
      apply Hin. now left.
    + apply IH; [assumption|]. intros H. apply Hin. now right.
Qed.

(** A registration that fails leaves the users table as it was. *)
Lemma register_user_raise_store (name mail password : string) (dob : date) (w w' : World)
    (e : exn) :
  register_user name mail password dob w = (Raise e, w') -> store w' = store w.
Proof.
  unfold register_user. unfold bind at 1.
  rewrite (get_by_username_result name w).
  destruct (fst (get_by_username name w)) as [[u|]|x]; try (now intros [= _ <-]).
  unfold bind at 1. unfold get_by_email, select_where. run.
  destruct (store w) as [rows|] eqn:Es; [|intros [= _ <-]; now rewrite Es].
  destruct (scalar_one_or_none (filter _ rows)) as [[r|]|x];
    cbn [option_map]; cbn beta; try (intros [= _ <-]; now rewrite Es).
  destruct (nonempty (validate_registration (today w) name mail password dob));
    [intros [= _ <-]; now rewrite Es|].
  unfold hash_password, gensalt, uuid4, create. run. cbn [store set_entropy]. rewrite Es.
  destruct (existsb _ rows); [|discriminate].
  intros [= _ <-]. cbn [store set_entropy]. exact Es.
Qed.

(** X16. Registration keeps the directory sound. If no two rows share a user
    name and no two share an email, the same is true after [register_user],
    whatever its outcome; no row that was there is lost or changed; and when
    it fails the table is the one it was. *)
Theorem register_user_keeps_directory (name mail password : string) (dob : date)
    (w w' : World) (r : result UserInfoSchema) (rows : list User) :
  store w = Reachable rows ->
  NoDup (map username rows) -> NoDup (map email rows) ->
  register_user name mail password dob w = (r, w') ->
  exists rows',
    store w' = Reachable rows' /\
    NoDup (map username rows') /\ NoDup (map email rows') /\
    (forall row, In row rows -> In row rows') /\
    (forall e, r = Raise e -> rows' = rows).
Proof.
  intros Hs Hu He Hr. destruct r as [info|e].
  - apply register_user_ok in Hr as (rows0 & Hs0 & Hfresh & _ & Hs' & _).
    rewrite Hs in Hs0. injection Hs0 as <-.
    eexists. split; [exact Hs'|]. rewrite !map_app. cbn [map username email].
    split; [|split; [|split]].
    + apply NoDup_snoc; [exact Hu|]. intros Hin. apply in_map_iff in Hin as (row & Hn & Hin).
      now apply (proj1 (Hfresh row Hin)).
    + apply NoDup_snoc; [exact He|]. intros Hin. apply in_map_iff in Hin as (row & Hn & Hin).
      now apply (proj2 (Hfresh row Hin)).
    + intros row Hin. apply in_or_app. now left.
    + discriminate.
  - apply register_user_raise_store in Hr. exists rows. rewrite Hr, Hs. auto.
Qed.

(** X17. Registration and login, composed: where the hasher verifies what it
    hashed, a login with the name and password of a registration that
    returned is let in. *)
Theorem register_then_login (name mail password : string) (dob : date) (w w' : World)
    (info : UserInfoSchema) :
  (forall salt, checkpw password (hashpw password salt) = Ok true) ->
  register_user name mail password dob w = (Ok info, w') ->
  exists ts w'', login name password w' = (Ok ts, w'').
Proof.
  intros Hhash Hr.
  apply register_user_ok in Hr as (rows & _ & Hfresh & _ & Hs' & _).
  unfold login, authenticate_user, try_except, any_exception, verify_password. run.
  rewrite (get_by_username_rows name w' Hs'), filter_app.
  replace (filter (fun r => String.eqb (username r) name) rows) with (@nil User).
  2: { symmetry. apply filter_nil. intros row Hin. apply String.eqb_neq.
       now apply (proj1 (Hfresh row Hin)). }
  cbn -[create_tokens]. rewrite String.eqb_refl. cbn -[create_tokens].
  rewrite Hhash. cbn -[create_tokens].
  destruct (create_tokens_total name w') as (a & rt & w'' & ->). eauto.
Qed.

End RepositoryFacts.

(** ** The further properties at work *)


Lemma calculate_token_expiry_cases_witness :
  calculate_token_expiry "id" None None world0
  = (Raise (ValueError "Неизвестный тип токена: id"), world0).
Proof.
  apply (proj1 (calculate_token_expiry_cases "id" None None world0)); discriminate.
Defined.

Lemma login_then_authenticated_witness :
  exists ts w',
    login "alice" "Secure1!x" world0 = (Ok ts, w') /\
    get_current_user (with_bearer (access_token ts)) w' = (Ok (Some alice), w').
Proof.
  destruct (login "alice" "Secure1!x" world0) as [[ts|e] w'] eqn:El; [|discriminate El].
  exists ts, w'. split; [reflexivity|].
  destruct (@login_then_authenticated _ "alice" "Secure1!x" world0 w' ts El)
    as (user & Hu & Hb & _); [discriminate | reflexivity |].
  injection Hu as <-. exact Hb.
Defined.

(** Four hours before its expiry alice's refresh token is accepted on a
    server on UTC and turned away on one five hours behind. *)
Lemma refresh_token_window_witness :
  (exists ts w', refresh_token (snd alice_tokens) (set_utcnow world0 1590400) = (Ok ts, w')) /\
  refresh_token (snd alice_tokens) world_west
  = (Raise (refresh_failed "Истекший refresh токен"), world_west).
Proof.
  split.
  - apply (@refresh_token_window _
             (mkjws "HS256"
                (mkclaims (Some "alice") (Some 1604800%Z) (Some "refresh") (Some 1%N))
                (SECRET_KEY default_settings))
             (set_utcnow world0 1590400) "alice" 1604800 alice
             eq_refl eq_refl eq_refl eq_refl ltac:(discriminate) eq_refl eq_refl);
      reflexivity || discriminate.
  - apply (@refresh_token_window _
             (mkjws "HS256"
                (mkclaims (Some "alice") (Some 1604800%Z) (Some "refresh") (Some 1%N))
                (SECRET_KEY default_settings))
             world_west "alice" 1604800 alice
             eq_refl eq_refl eq_refl eq_refl ltac:(discriminate) eq_refl eq_refl);
      reflexivity.
Defined.

Lemma refresh_token_rotation_witness :
  exists ts w' ts' w'',
    refresh_token (snd alice_tokens) world0 = (Ok ts, w') /\
    refresh_token (snd alice_tokens) w' = (Ok ts', w'').
Proof.
  destruct (refresh_token (snd alice_tokens) world0) as [[ts|e] w'] eqn:Er; [|discriminate Er].
  destruct (proj2 (@refresh_token_rotation _ _ _ _ _ Er)) as (ts' & w'' & Hr).
  exists ts, w', ts', w''. split; [reflexivity | exact Hr].
Defined.

Lemma delete_revokes_sessions_witness :
  exists w',
    delete "alice" world0 = (Ok true, w') /\
    get_by_username "alice" w' = (Ok None, w') /\
    get_current_user (with_bearer (fst alice_tokens)) w' = (Ok None, w') /\
    exists m, refresh_token (snd alice_tokens) w' = (Raise (ValueError m), w').
Proof.
  destruct (delete "alice" world0) as [[[|]|e] w'] eqn:Ed;
    [|discriminate Ed|discriminate Ed].
  exists w'. split; [reflexivity|].
  destruct (@delete_revokes_sessions _ "alice" world0 w' Ed) as (Hg & _ & Hj).
  split; [exact Hg|]. split.
  - apply (proj2 (Hj (mkjws "HS256"
                        (mkclaims (Some "alice") (Some 1003600%Z) (Some "access") (Some 0%N))
                        (SECRET_KEY default_settings)) eq_refl)).
    reflexivity.
  - apply (proj1 (Hj (mkjws "HS256"
                        (mkclaims (Some "alice") (Some 1604800%Z) (Some "refresh") (Some 1%N))
                        (SECRET_KEY default_settings)) eq_refl)).
Defined.

Lemma cookie_shadows_header_witness :
  get_current_user stale_cookie_request world0 = (Ok None, world0).
Proof.
  rewrite (@cookie_shadows_header _ stale_cookie_request world0 eq_refl). reflexivity.
Defined.

Lemma refresh_route_failures_witness :
  serve (refresh_route (snd alice_tokens)) world_down
  = JSONResponse 401 (ErrorOf (Detail "Не удалось обновить токен: connection refused")).
Proof.
  apply (proj2 (refresh_route_failures (snd alice_tokens) world_down)
           (mkjws "HS256"
              (mkclaims (Some "alice") (Some 1604800%Z) (Some "refresh") (Some 1%N))
              (SECRET_KEY default_settings)) "alice" 1604800%Z
           (OperationalError "connection refused"));
    reflexivity || discriminate.
Defined.

Lemma get_current_user_info_never_answers_witness :
  get_current_user_info (with_bearer (fst alice_tokens)) world0
  = (Raise (DataError "invalid input for query argument $1 (expected str)"), world0) /\
  get_current_user_info (mkRequest "GET" [] []) world0 = (Raise not_found, world0).
Proof.
  split.
  - exact (proj1 (proj2 (get_current_user_info_never_answers
                           (with_bearer (fst alice_tokens)) world0)) alice world0 eq_refl).
  - apply (proj2 (proj2 (get_current_user_info_never_answers
                           (mkRequest "GET" [] []) world0)) [alice; bob]); reflexivity.
Defined.


Lemma register_user_keeps_directory_witness :
  exists rows',
    store (snd (register_user "carol" "carol@example.com" "Secure1!x" (mkdate 2000 1 1) world0))
    = Reachable rows' /\
    NoDup (map username rows') /\ NoDup (map email rows') /\
    In alice rows' /\ In bob rows'.
Proof.
  assert (NoDup (map username [alice; bob])) as Hu.
  { repeat constructor; cbn; intuition discriminate. }
  assert (NoDup (map email [alice; bob])) as He.
  { repeat constructor; cbn; intuition discriminate. }
  destruct (register_user "carol" "carol@example.com" "Secure1!x" (mkdate 2000 1 1) world0)
    as [r w'] eqn:Er.
  destruct (@register_user_keeps_directory _ _ _ _ _ world0 w' r [alice; bob]
              eq_refl Hu He Er) as (rows' & Hs & Hu' & He' & Hkeep & _).
  exists rows'. cbn [snd]. repeat split; try assumption.
  - apply Hkeep. now left.
  - apply Hkeep. right. now left.
Defined.

Lemma register_then_login_witness :
  exists info w' ts w'',
    register_user "carol" "carol@example.com" "Secure1!x" (mkdate 2000 1 1) world0
    = (Ok info, w') /\
    login "carol" "Secure1!x" w' = (Ok ts, w'').
Proof.
  destruct (register_user "carol" "carol@example.com" "Secure1!x" (mkdate 2000 1 1) world0)
    as [[info|e] w'] eqn:Er; [|discriminate Er].
  destruct (@register_then_login ascii_platform "carol" "carol@example.com" "Secure1!x"
              (mkdate 2000 1 1)
              world0 w' info (fun _ => eq_refl) Er)
    as (ts & w'' & Hl).
  exists info, w', ts, w''. split; [reflexivity | exact Hl].
Defined.

(** ** The repository's update *)

Section UpdateRepositoryFacts.
Context {P : Platform}.

Lemma write_row_filter_same (entity : User) (rows : list User) :
  filter (fun r => String.eqb (username r) (username entity)) (write_row entity rows)
  = map (fun r => mkUser (username r) (email entity) (password_hash entity)
                    (date_of_birth entity) (bank_balance entity))
      (filter (fun r => String.eqb (username r) (username entity)) rows).
Proof.
  unfold write_row. induction rows as [|r rows IH]; [reflexivity|]. simpl.
  destruct (String.eqb (username r) (username entity)) eqn:E; simpl; rewrite E, IH; reflexivity.
Qed.

Lemma write_row_filter_other (entity : User) (other : string) (rows : list User) :
  other <> username entity ->
  filter (fun r => String.eqb (username r) other) (write_row entity rows)
  = filter (fun r => String.eqb (username r) other) rows.
Proof.
  intros Hne. unfold write_row. induction rows as [|r rows IH]; [reflexivity|]. simpl.
  destruct (String.eqb (username r) (username entity)) eqn:E; simpl; rewrite IH.
  - apply String.eqb_eq in E.
    replace (String.eqb (username r) other) with false; [reflexivity|].
    symmetry. apply String.eqb_neq. congruence.
  - reflexivity.
Qed.

(** X18. [update] and the lookups. An [update] that returns has rewritten the
    one row of the entity's name: the lookup of that name returns what
    [update] returned, with the entity's email, password hash and date of
    birth; every other name is found as before; and the call is on the log. *)
Theorem update_then_lookup (entity u : User) (w w' : World) :
  update entity w = (Ok u, w') ->
  get_by_username (username entity) w' = (Ok (Some u), w') /\
  username u = username entity /\ email u = email entity /\
  password_hash u = password_hash entity /\ date_of_birth u = date_of_birth entity /\
  (forall other : string, other <> username entity ->
     fst (get_by_username other w') = fst (get_by_username other w)) /\
  repo_log w' = (repo_log w ++ [CallUpdate entity])%list.
Proof.
  unfold update. run. unfold select_where. run. unfold log_call, set_store. cbn [store].
  destruct (store w) as [rows|] eqn:Es; [|discriminate].
  destruct (filter (fun r => String.eqb (username r) (username entity)) rows)
    as [|r [|r' rest]] eqn:Ef; cbn [scalar_one_or_none]; try discriminate.
  cbn [store]. cbn beta.
  rewrite write_row_filter_same, Ef. cbn [map].
  assert (username r = username entity) as Hn.
  { assert (In r (filter (fun r => String.eqb (username r) (username entity)) rows)) as Hin
      by (rewrite Ef; now left).
    apply filter_In in Hin as [_ Hin]. now apply String.eqb_eq. }
  intros [= <- <-].
  match goal with
  | |- get_by_username _ ?w1 = _ /\ _ =>
      assert (store w1 = Reachable (write_row entity rows)) as Hs' by reflexivity
  end.
  split; [|repeat split; try assumption; try reflexivity].
  - rewrite (get_by_username_rows _ _ Hs'), write_row_filter_same, Ef. reflexivity.
  - intros other Hne.
    rewrite (get_by_username_rows _ _ Hs'), (get_by_username_rows _ _ Es).
    cbn [fst]. now rewrite write_row_filter_other.
Qed.

End UpdateRepositoryFacts.

Lemma update_then_lookup_witness :
  exists u w',
    update (set_email alice "a@example.com") world0 = (Ok u, w') /\
    get_by_username "alice" w' = (Ok (Some u), w') /\ email u = "a@example.com" /\
    fst (get_by_username "bob" w') = fst (get_by_username "bob" world0).
Proof.
  destruct (update (set_email alice "a@example.com") world0) as [[u|e] w'] eqn:Eu;
    [|discriminate Eu].
  destruct (@update_then_lookup _ (set_email alice "a@example.com") u world0 w' Eu)
    as (Hg & _ & He & _ & _ & Hother & _).
  exists u, w'. split; [reflexivity|]. split; [exact Hg|]. split; [exact He|].
  apply Hother. discriminate.
Defined.

(** ** Deleting a user *)

Section DeleteFacts.
Context {P : Platform}.

(** X19. [delete_user] succeeds once. After a deletion that returned, the
    name is gone from the directory and a second deletion of it is answered
    404 and leaves the users table alone. *)
Theorem delete_user_once (name : string) (w w' : World) (m : string) :
  delete_user name w = (Ok m, w') ->
  get_by_username name w' = (Ok None, w') /\
  exists w'', delete_user name w' = (Raise not_found, w'') /\ store w'' = store w'.
Proof.
  unfold delete_user. unfold bind at 1.
  destruct (delete name w) as [[[|]|e] w0] eqn:Ed; cbn [negb]; try discriminate.
  unfold ret. intros [= _ <-].
  pose proof (delete_ok _ _ Ed) as (rows & _ & Hs' & _).
  split.
  - rewrite (get_by_username_rows name w0 Hs'), filter_out_then_in. reflexivity.
  - unfold bind, delete, select_where. run. unfold log_call. cbn [store].
    rewrite Hs', filter_out_then_in. cbn. eexists. split; reflexivity.
Qed.

End DeleteFacts.

Lemma delete_user_once_witness :
  exists m w' w'',
    delete_user "alice" world0 = (Ok m, w') /\
    delete_user "alice" w' = (Raise not_found, w'').
Proof.
  destruct (delete_user "alice" world0) as [[m|e] w'] eqn:Ed; [|discriminate Ed].
  destruct (@delete_user_once _ "alice" world0 w' m Ed) as (_ & w'' & Hd & _).
  exists m, w', w''. split; [reflexivity | exact Hd].
Defined.

(** ** The CSRF guard as shipped *)

Section CsrfShippedFacts.
Context {P : Platform}.


End CsrfShippedFacts.

